(** * build_basic_rom: the ROM-to-Solidity generator, embedded and verified

    A shallow embedding of [scripts/build_basic_rom.py].  The script reads two
    hexadecimal dumps, validates them, joins them, cuts the result in pieces
    of 1,024 characters with [textwrap.wrap], renders a Solidity contract
    around the pieces and writes it to [src/BasicRom.sol].

    Python values are modelled as follows.
    - A [str] is the list of its Unicode code points ([N]).
    - An [int] that is compared with a constant is a [Z]; sizes and indices
      that feed slices are [nat].
    - The file system is a finite map from path to decoded file content, plus
      the set of paths that cannot be written; standard output is the list of
      printed lines.
    - Exceptions are values of [exn]; a computation is a state-and-error
      monad over the world. *)

From Stdlib Require Import List NArith ZArith Lia Bool String Ascii DecimalString.
From stdpp Require Import gmap strings.
Import ListNotations.

Local Open Scope N_scope.

(** ** Python strings *)

Module PyStr.

Definition char : Type := N.
Definition str : Type := list char.

(** A literal of the source, as a [str].  Only used on ASCII literals. *)
Definition py (s : string) : str :=
  List.map N_of_ascii (list_ascii_of_string s).

Definition LF : char := 10.
Definition CR : char := 13.
Definition TAB : char := 9.
Definition SPACE : char := 32.
Definition QUOTE : char := 34.
Definition HYPHEN : char := 45.

(** [len(s)] *)
Definition len (s : str) : Z := Z.of_nat (List.length s).

(** [str.isspace] on one character: the code points CPython's
    [_PyUnicode_IsWhitespace] accepts.  This is the set [str.strip()]
    removes. *)
Definition isspace (c : char) : bool :=
  ((9 <=? c) && (c <=? 13)) || ((28 <=? c) && (c <=? 32))
  || (c =? 133) || (c =? 160) || (c =? 5760)
  || ((8192 <=? c) && (c <=? 8202))
  || (c =? 8232) || (c =? 8233) || (c =? 8239) || (c =? 8287)
  || (c =? 12288).

(** [s.lstrip()] *)
Fixpoint lstrip (s : str) : str :=
  match s with
  | [] => []
  | c :: s' => if isspace c then lstrip s' else s
  end.

(** [s.rstrip()] *)
Fixpoint rstrip (s : str) : str :=
  match s with
  | [] => []
  | c :: s' =>
      match rstrip s' with
      | [] => if isspace c then [] else [c]
      | kept => c :: kept
      end
  end.

(** [s.strip()] *)
Definition strip (s : str) : str := rstrip (lstrip s).

(** [s.replace(old, new)] for a pattern [old] of one character. *)
Definition replace (old : char) (new : str) (s : str) : str :=
  flat_map (fun c => if c =? old then new else [c]) s.

(** [c in alphabet] for a one-character string [c]. *)
Definition contains (alphabet : str) (c : char) : bool :=
  existsb (N.eqb c) alphabet.

(** [str.lower] on one character of the ASCII range.  The script calls
    [lower] only on text that passed the hexadecimal check (lemma
    [validated_text_is_hex] below), where the Unicode case mapping of
    CPython and this one agree; other code points are left alone. *)
Definition lower_char (c : char) : char :=
  if (65 <=? c) && (c <=? 90) then c + 32 else c.

(** [s.lower()] *)
Definition lower (s : str) : str := List.map lower_char s.

(** [sep.join(l)] *)
Fixpoint join (sep : str) (l : list str) : str :=
  match l with
  | [] => []
  | [x] => x
  | x :: rest => x ++ sep ++ join sep rest
  end.

(** [str(n)] for an [int]. *)
Definition decimal (n : Z) : str :=
  py (NilZero.string_of_int (Z.to_int n)).

(** [s * n] *)
Definition times (s : str) (n : Z) : str :=
  concat (repeat s (Z.to_nat n)).

(** Number of (possibly overlapping) occurrences of [pat] in [s]. *)
Fixpoint starts_with (pat s : str) : bool :=
  match pat, s with
  | [], _ => true
  | _ :: _, [] => false
  | p :: pat', c :: s' => (p =? c) && starts_with pat' s'
  end.

Fixpoint occurrences (pat s : str) : nat :=
  match s with
  | [] => 0%nat
  | _ :: s' => ((if starts_with pat s then 1 else 0) + occurrences pat s')%nat
  end.

End PyStr.
Import PyStr.

(** ** Exceptions, the world, and the monad of the script *)

Inductive exn : Type :=
| ValueError (msg : str)
| AssertionError (msg : str)
| OSError (path : string).

(** The outcome of a computation: a value, a raised exception, or
    [Unmodelled] when the run leaves the fragment of the standard library
    that is embedded here (see [textwrap]).  [main_is_modelled] shows that
    the script never does. *)
Inductive result (A : Type) : Type :=
| Ok (a : A)
| Raise (e : exn)
| Unmodelled.
Arguments Ok {A} a.
Arguments Raise {A} e.
Arguments Unmodelled {A}.

Record world : Type := World {
  files : gmap string str;   (* decoded content of each readable file *)
  locked : gset string;      (* paths that cannot be created or written *)
  stdout : list str          (* lines printed so far *)
}.

Definition M (A : Type) : Type := world -> result A * world.

#[global] Instance M_ret : MRet M := fun A (a : A) w => (Ok a, w).
#[global] Instance M_bind : MBind M := fun A B (k : A -> M B) (m : M A) w =>
  match m w with
  | (Ok a, w') => k a w'
  | (Raise e, w') => (Raise e, w')
  | (Unmodelled, w') => (Unmodelled, w')
  end.

(** [raise e] *)
Definition raise {A} (e : exn) : M A := fun w => (Raise e, w).

(** A call that touches neither the files nor the output. *)
Definition pure {A} (r : result A) : M A := fun w => (r, w).

(** A list comprehension over an effectful function: left to right, stopping
    at the first exception. *)
Fixpoint for_each {A B} (f : A -> M B) (l : list A) : M (list B) :=
  match l with
  | [] => mret []
  | a :: l' => b ← f a; bs ← for_each f l'; mret (b :: bs)
  end.

(** ** Text-mode file access ([pathlib.Path]) *)

Module TextIO.

(** Universal-newline translation of text mode: "\r\n" and a lone "\r"
    both read as "\n".  [pending] records that the previous character was
    a "\r" already turned into "\n". *)
Fixpoint translate_newlines (pending : bool) (s : str) : str :=
  match s with
  | [] => []
  | c :: s' =>
      if (c =? LF) && pending then translate_newlines false s'
      else if c =? CR then LF :: translate_newlines true s'
      else c :: translate_newlines false s'
  end.

(** [path.read_text()]: a missing or unreadable file raises [OSError]. *)
Definition read_text (path : string) : M str :=
  fun w =>
    match files w !! path with
    | Some raw => (Ok (translate_newlines false raw), w)
    | None => (Raise (OSError path), w)
    end.

(** [path.write_text(data)]: replaces the whole file. *)
Definition write_text (path : string) (data : str) : M unit :=
  fun w =>
    if decide (path ∈ locked w) then (Raise (OSError path), w)
    else (Ok tt, World (<[path := data]> (files w)) (locked w) (stdout w)).

(** [print(line)] *)
Definition print (line : str) : M unit :=
  fun w => (Ok tt, World (files w) (locked w) (stdout w ++ [line])).

End TextIO.
Import TextIO.

(** ** The standard library's [textwrap.wrap]

    [textwrap.wrap(text, width)] builds a [TextWrapper] with the default
    options ([break_long_words], [break_on_hyphens] and [drop_whitespace]
    set, no indent, no [max_lines]) and runs [_split_chunks] and then
    [_wrap_chunks].  The second is embedded in full for these options.  The
    first is a regular-expression split on white space and hyphens; it is
    embedded for text that holds neither, where the whole text is one chunk,
    and is [Unmodelled] elsewhere. *)

Module textwrap.

(** The characters [_munge_whitespace] and the word-separator expression
    act on: the module's [_whitespace] and the hyphen. *)
Definition is_separator (c : char) : bool :=
  contains (py "-" ++ [9; 10; 11; 12; 13; 32]) c.

(** [_split_chunks(text)]: the chunks that are not empty. *)
Definition _split_chunks (text : str) : result (list str) :=
  if existsb is_separator text then Unmodelled
  else match text with
       | [] => Ok []
       | _ :: _ => Ok [text]
       end.

(** [chunk.strip() == ''] *)
Definition is_blank (chunk : str) : bool :=
  match strip chunk with
  | [] => true
  | _ :: _ => false
  end.

(** [chunk.rfind(c, 0, stop)]: the last index below [stop] that holds
    [c], if there is one. *)
Fixpoint rfind_from (c : char) (s : str) (i : nat) : option nat :=
  match s with
  | [] => None
  | x :: s' =>
      match rfind_from c s' (S i) with
      | Some j => Some j
      | None => if x =? c then Some i else None
      end
  end.

Definition rfind (c : char) (chunk : str) (stop : nat) : option nat :=
  rfind_from c (take stop chunk) 0.

(** The stack of chunks: Python reverses the list and pops from its end;
    here the top of the stack is the head of the list, so the stack reads
    in text order. *)

(** [_handle_long_word(reversed_chunks, cur_line, cur_len, width)]: cut
    the chunk on top of the stack so that the line is filled.  Returns
    the new stack and the new line. *)
Definition _handle_long_word (reversed_chunks cur_line : list str)
    (cur_len width : nat) : list str * list str :=
  let space_left := if (width <? 1)%nat then 1%nat else (width - cur_len)%nat in
  match reversed_chunks with
  | [] => (reversed_chunks, cur_line)
  | chunk :: rest =>
      let end_ :=
        if (space_left <? List.length chunk)%nat then
          match rfind HYPHEN chunk space_left with
          | Some hyphen =>
              if (0 <? hyphen)%nat
                 && existsb (fun c => negb (c =? HYPHEN)) (take hyphen chunk)
              then (hyphen + 1)%nat else space_left
          | None => space_left
          end
        else space_left in
      (drop end_ chunk :: rest, cur_line ++ [take end_ chunk])
  end.

(** The inner loop of [_wrap_chunks]: move chunks to the line while they
    fit.  Returns the stack, the line and its length. *)
Fixpoint fill_line (chunks cur_line : list str) (cur_len width : nat)
    : list str * list str * nat :=
  match chunks with
  | [] => (chunks, cur_line, cur_len)
  | chunk :: rest =>
      if (cur_len + List.length chunk <=? width)%nat
      then fill_line rest (cur_line ++ [chunk])
                     (cur_len + List.length chunk)%nat width
      else (chunks, cur_line, cur_len)
  end.

(** One pass of the outer loop of [_wrap_chunks], from a stack that is
    not empty: the stack and the lines after the pass. *)
Definition wrap_line (chunks lines : list str) (width : nat)
    : list str * list str :=
  let chunks :=
    match chunks, lines with
    | top :: rest, _ :: _ => if is_blank top then rest else chunks
    | _, _ => chunks
    end in
  let '(chunks, cur_line, cur_len) := fill_line chunks [] 0 width in
  let '(chunks, cur_line) :=
    match chunks with
    | top :: _ =>
        if (width <? List.length top)%nat
        then _handle_long_word chunks cur_line cur_len width
        else (chunks, cur_line)
    | [] => (chunks, cur_line)
    end in
  let cur_line :=
    match last cur_line with
    | Some c => if is_blank c then removelast cur_line else cur_line
    | None => cur_line
    end in
  match cur_line with
  | [] => (chunks, lines)
  | _ :: _ => (chunks, lines ++ [concat cur_line])
  end.

(** The outer loop, with a bound on the number of passes. *)
Fixpoint wrap_loop (fuel : nat) (chunks lines : list str) (width : nat)
    : result (list str) :=
  match chunks with
  | [] => Ok lines
  | _ :: _ =>
      match fuel with
      | O => Unmodelled
      | S fuel' =>
          let '(chunks', lines') := wrap_line chunks lines width in
          wrap_loop fuel' chunks' lines' width
      end
  end.

(** [_wrap_chunks(chunks)].  Every pass takes a chunk or at least one
    character off the stack, so the number of chunks plus the number of
    characters bounds the number of passes. *)
Definition _wrap_chunks (chunks : list str) (width : Z) : result (list str) :=
  if (width <=? 0)%Z
  then Raise (ValueError (py "invalid width " ++ decimal width ++ py " (must be > 0)"))
  else wrap_loop (List.length chunks + List.length (concat chunks))
                 chunks [] (Z.to_nat width).

(** [textwrap.wrap(text, width)] *)
Definition wrap (text : str) (width : Z) : result (list str) :=
  match _split_chunks text with
  | Ok chunks => _wrap_chunks chunks width
  | Raise e => Raise e
  | Unmodelled => Unmodelled
  end.

End textwrap.

(** ** The script *)

Definition PART_FILES : list string :=
  ["rom/eh_hex_part1.txt"; "rom/eh_hex_part2.txt"]%string.
Definition OUTPUT_SOL : string := "src/BasicRom.sol"%string.
Definition CHUNK_HEX_LEN : Z := 1024.

Definition HEX_ALPHABET : str := py "0123456789abcdefABCDEF".

(** The text the checks of [read_and_validate] look at:
    [path.read_text().strip().replace("\n", "")], from the decoded file
    content. *)
Definition normalize (raw : str) : str :=
  replace LF [] (strip (translate_newlines false raw)).

(** The two [ValueError]s of [read_and_validate] and the [AssertionError] of
    [main], under the names the specification gives to these conditions. *)
Definition LengthMismatch (path : string) (actual : Z) : exn :=
  ValueError (py path ++ py " is " ++ decimal actual ++ py " chars, expected 16384").
Definition InvalidCharacter (path : string) : exn :=
  ValueError (py path ++ py " contains invalid hex").
Definition IntegrityMismatch : exn :=
  AssertionError (py "Combined ROM hex should be 32768 chars (16 KiB)").

Definition read_and_validate (path : string) : M str :=
  text ← read_text path;
  let data := replace LF [] (strip text) in
  if negb (len data =? 16384)%Z then
    raise (LengthMismatch path (len data))
  else if negb (len data mod 2 =? 0)%Z
          || existsb (fun c => negb (contains HEX_ALPHABET c)) data then
    raise (InvalidCharacter path)
  else mret (lower data).

(** The literal token of one chunk. *)
Definition hex_literal (chunk : str) : str :=
  py "hex" ++ [QUOTE] ++ chunk ++ [QUOTE].

(** The template of [sol_source], with the braces of the format string
    already unescaped.  The title line holds an em dash and a no-break
    space, the notice line a non-breaking hyphen and an em dash. *)
Definition sol_header : str :=
  py "// SPDX-License-Identifier: MIT" ++ [LF]
  ++ py "pragma solidity ^0.8.20;" ++ [LF]
  ++ [LF]
  ++ py "/// @title BasicRom " ++ [8212] ++ py " EhBASIC v2.22 ROM (16" ++ [160] ++ py "KiB)" ++ [LF]
  ++ py "/// @notice Deployed bytecode *is* the ROM image. Auto" ++ [8209]
  ++ py "generated " ++ [8212] ++ py " DO NOT EDIT MANUALLY." ++ [LF]
  ++ py "///          Regenerate with `python scripts/build_basic_rom.py` if needed." ++ [LF]
  ++ py "contract BasicRom {" ++ [LF]
  ++ py "    constructor() {" ++ [LF]
  ++ py "        bytes memory rom = ".

Definition sol_footer : str :=
  py ";" ++ [LF]
  ++ py "        assembly {" ++ [LF]
  ++ py "            return(add(rom, 0x20), mload(rom))" ++ [LF]
  ++ py "        }" ++ [LF]
  ++ py "    }" ++ [LF]
  ++ py "}" ++ [LF].

Definition render (hex_literals : str) : str :=
  sol_header ++ hex_literals ++ sol_footer.

(** The line [main] prints.  Its braces are doubled in the source, so the
    format string prints the two expressions as text. *)
Definition confirmation : str :=
  py "Generated {OUTPUT_SOL} ({len(combined) // 2} bytes)".

Definition main : M unit :=
  parts ← for_each read_and_validate PART_FILES;
  let combined := concat parts in
  if negb (len combined =? 32768)%Z then raise IntegrityMismatch
  else
    chunks ← pure (textwrap.wrap combined CHUNK_HEX_LEN);
    let hex_literals := join (py " ") (List.map hex_literal chunks) in
    let sol_source := render hex_literals in
    write_text OUTPUT_SOL sol_source;;
    print confirmation.

(** ** Worlds for the examples *)

Definition part1 : string := "rom/eh_hex_part1.txt"%string.
Definition part2 : string := "rom/eh_hex_part2.txt"%string.

(** A world with the two dumps and nothing else. *)
Definition world_of (a b : str) : world :=
  World (<[part1 := a]> (<[part2 := b]> ∅)) ∅ [].

Definition zeros : str := times (py "00") 8192%Z.
Definition effs : str := times (py "ff") 8192%Z.


(** ** Vocabulary of the statements *)

(** The hexadecimal alphabet, either case, and its lower-case half. *)
Definition is_hex (c : char) : bool := contains HEX_ALPHABET c.
Definition is_lower_hex (c : char) : bool := contains (py "0123456789abcdef") c.

Definition is_linebreak (c : char) : bool := (c =? LF) || (c =? CR).

(** The normalization as the specification words it: every white-space
    character goes, wherever it stands. *)
Definition remove_whitespace (raw : str) : str :=
  List.filter (fun c => negb (isspace c)) raw.

(** The confirmation as the specification words it: the output path and
    the byte count, which is what the format string of [main] would print
    with single braces. *)
Definition intended_confirmation (combined : str) : str :=
  py "Generated " ++ py OUTPUT_SOL ++ py " (" ++ decimal (len combined / 2)
  ++ py " bytes)".

(** The checks of [read_and_validate] as a function of the file content. *)
Definition validate (path : string) (raw : str) : result str :=
  let data := normalize raw in
  if negb (len data =? 16384)%Z then Raise (LengthMismatch path (len data))
  else if negb (len data mod 2 =? 0)%Z
          || existsb (fun c => negb (contains HEX_ALPHABET c)) data
       then Raise (InvalidCharacter path)
       else Ok (lower data).

(** The [i]-th of the consecutive pieces of [width] characters of [text],
    and the first [k] of them. *)
Definition piece (width : nat) (text : str) (i : nat) : str :=
  take width (drop (i * width) text).
Definition pieces (width k : nat) (text : str) : list str :=
  List.map (piece width text) (seq 0 k).

(** Two characters that differ at most in the case of a hexadecimal letter,
    and two characters that differ at most in case. *)
Definition hex_case_variant (c c' : char) : Prop :=
  c = c' \/ (is_hex c = true /\ is_hex c' = true /\ lower_char c = lower_char c').
Definition case_variant (c c' : char) : Prop := lower_char c = lower_char c'.

(** Text that is white space only, and text that holds a character that
    is not white space. *)
Definition all_space (s : str) : Prop := Forall (fun c => isspace c = true) s.
Definition some_text (s : str) : Prop := Exists (fun c => isspace c = false) s.

(** Text over the hexadecimal alphabet, and over its lower-case half. *)
Definition all_hex (s : str) : Prop := Forall (fun c => is_hex c = true) s.
Definition all_lower_hex (s : str) : Prop :=
  Forall (fun c => is_lower_hex c = true) s.

(** Text without white space and without a character [textwrap] splits
    at. *)
Definition solid (s : str) : Prop :=
  Forall (fun c => textwrap.is_separator c = false /\ isspace c = false) s.

(** The outcome of the list comprehension of [main], as a function of the
    files. *)
Definition load (w : world) : result (list str) :=
  match files w !! part1 with
  | None => Raise (OSError part1)
  | Some a =>
      match validate part1 a with
      | Ok s1 =>
          match files w !! part2 with
          | None => Raise (OSError part2)
          | Some b =>
              match validate part2 b with
              | Ok s2 => Ok [s1; s2]
              | Raise e => Raise e
              | Unmodelled => Unmodelled
              end
          end
      | Raise e => Raise e
      | Unmodelled => Unmodelled
      end
  end.

(** The source text around the 32 pieces of a payload. *)
Definition sol_source_of (combined : str) : str :=
  render (join (py " ") (List.map hex_literal (pieces 1024 32 combined))).

(** Text whose only white space is line breaks. *)
Definition text_or_linebreak (c : char) : bool :=
  negb (isspace c) || is_linebreak c.
Definition unbroken (s : str) : Prop :=
  Forall (fun c => text_or_linebreak c = true) s.

(** What a finished run left at the output path, if it succeeded. *)
Definition produced (run : result unit * world) : option str :=
  match run with
  | (Ok _, w) => files w !! OUTPUT_SOL
  | _ => None
  end.

(** ** Example inputs *)

(** 16,384 digits with one space in the middle. *)
Definition zeros_with_space : str :=
  times (py "00") 4096%Z ++ [SPACE] ++ times (py "00") 4096%Z.

(** 16,384 digits broken into two lines, with a final line break. *)
Definition zeros_in_lines : str :=
  times (py "00") 4096%Z ++ [CR; LF] ++ times (py "00") 4096%Z ++ [LF].

(** 16,384 upper-case digits. *)
Definition upper_effs : str := times (py "FF") 8192%Z.

(** 16,384 characters that are not digits, and 16,383 digits. *)
Definition gees : str := times (py "gg") 8192%Z.
Definition short_zeros : str := times (py "0") 16383%Z.

(** A world that differs from [world_of zeros effs] in everything but the
    two dumps: an old output file, another file, earlier output. *)
Definition busy_world : world :=
  World (<[OUTPUT_SOL := py "stale"]>
           (<["README.md"%string := py "notes"]>
              (<[part1 := zeros]> (<[part2 := effs]> ∅))))
        {["rom/locked.txt"%string]} [py "earlier output"].

(** A world in which the first dump is missing, one in which the output
    path cannot be written, and a dump that is white space only. *)
Definition world_without_part1 : world :=
  World (<[part2 := effs]> ∅) ∅ [].
Definition blank : str := py "  " ++ [TAB; CR; LF; LF].

(** ** Characters *)

Lemma isspace_iff c :
  isspace c = true <->
  (9 <= c <= 13 \/ 28 <= c <= 32 \/ c = 133 \/ c = 160 \/ c = 5760
   \/ 8192 <= c <= 8202 \/ c = 8232 \/ c = 8233 \/ c = 8239 \/ c = 8287
   \/ c = 12288).
Proof.
  unfold isspace.
  rewrite !orb_true_iff, !andb_true_iff, !N.leb_le, !N.eqb_eq. lia.
Qed.

Lemma is_hex_iff c :
  is_hex c = true <-> (48 <= c <= 57 \/ 65 <= c <= 70 \/ 97 <= c <= 102).
Proof.
  unfold is_hex, contains, HEX_ALPHABET. cbn.
  rewrite !orb_true_iff, !N.eqb_eq. lia.
Qed.

Lemma is_lower_hex_iff c :
  is_lower_hex c = true <-> (48 <= c <= 57 \/ 97 <= c <= 102).
Proof.
  unfold is_lower_hex, contains. cbn.
  rewrite !orb_true_iff, !N.eqb_eq. lia.
Qed.

Lemma is_separator_iff c :
  textwrap.is_separator c = true <-> (9 <= c <= 13 \/ c = 32 \/ c = 45).
Proof.
  unfold textwrap.is_separator, contains. cbn.
  rewrite !orb_true_iff, !N.eqb_eq. lia.
Qed.

Lemma lower_char_hex c : is_hex c = true -> is_lower_hex (lower_char c) = true.
Proof.
  rewrite is_hex_iff, is_lower_hex_iff. unfold lower_char.
  destruct (N.leb_spec 65 c), (N.leb_spec c 90); cbn; lia.
Qed.

Lemma lower_hex_not_space c : is_lower_hex c = true -> isspace c = false.
Proof.
  rewrite is_lower_hex_iff. intros H.
  destruct (isspace c) eqn:E; [|reflexivity].
  apply isspace_iff in E. lia.
Qed.

Lemma lower_hex_not_separator c :
  is_lower_hex c = true -> textwrap.is_separator c = false.
Proof.
  rewrite is_lower_hex_iff. intros H.
  destruct (textwrap.is_separator c) eqn:E; [|reflexivity].
  apply is_separator_iff in E. lia.
Qed.

Lemma case_variant_cases c c' :
  case_variant c c' ->
  c = c' \/ (65 <= c <= 90 /\ c' = c + 32) \/ (65 <= c' <= 90 /\ c = c' + 32).
Proof.
  unfold case_variant, lower_char.
  destruct (N.leb_spec 65 c), (N.leb_spec c 90),
           (N.leb_spec 65 c'), (N.leb_spec c' 90); cbn; lia.
Qed.

Lemma case_variant_isspace c c' : case_variant c c' -> isspace c = isspace c'.
Proof.
  intros H. apply case_variant_cases in H.
  destruct (isspace c) eqn:E, (isspace c') eqn:E'; try reflexivity.
  - apply isspace_iff in E.
    assert (~ isspace c' = true) as N by congruence.
    rewrite isspace_iff in N. lia.
  - apply isspace_iff in E'.
    assert (~ isspace c = true) as N by congruence.
    rewrite isspace_iff in N. lia.
Qed.

Lemma case_variant_is_hex c c' : case_variant c c' -> is_hex c = is_hex c'.
Proof.
  intros H. apply case_variant_cases in H.
  destruct (is_hex c) eqn:E, (is_hex c') eqn:E'; try reflexivity.
  - apply is_hex_iff in E.
    assert (~ is_hex c' = true) as N by congruence.
    rewrite is_hex_iff in N. lia.
  - apply is_hex_iff in E'.
    assert (~ is_hex c = true) as N by congruence.
    rewrite is_hex_iff in N. lia.
Qed.

Lemma case_variant_eqb c c' d :
  case_variant c c' -> d < 65 -> (c =? d) = (c' =? d).
Proof.
  intros H Hd. apply case_variant_cases in H.
  destruct (N.eqb_spec c d), (N.eqb_spec c' d); try reflexivity; lia.
Qed.

Lemma hex_case_variant_case_variant c c' :
  hex_case_variant c c' -> case_variant c c'.
Proof. intros [->|(_ & _ & H)]; [reflexivity | exact H]. Qed.

Lemma lower_char_idem c : lower_char (lower_char c) = lower_char c.
Proof.
  unfold lower_char.
  destruct ((65 <=? c) && (c <=? 90)) eqn:E; [|now rewrite E].
  apply andb_true_iff in E. rewrite !N.leb_le in E.
  destruct ((65 <=? c + 32) && (c + 32 <=? 90)) eqn:E2; [|reflexivity].
  apply andb_true_iff in E2. rewrite !N.leb_le in E2. lia.
Qed.

(** ** Stripping *)

Lemma lstrip_all_space a b : all_space a -> lstrip (a ++ b) = lstrip b.
Proof. induction 1 as [|c a Hc _ IH]; cbn; [reflexivity | now rewrite Hc]. Qed.

Lemma lstrip_some_text a b : some_text a -> lstrip (a ++ b) = lstrip a ++ b.
Proof.
  induction a as [|c a IH]; intros H; [inversion H|].
  cbn. destruct (isspace c) eqn:E; [|reflexivity].
  apply IH. inversion H; subst; [congruence | assumption].
Qed.

Lemma lstrip_split s : exists a, all_space a /\ s = a ++ lstrip s.
Proof.
  induction s as [|c s (a & Ha & IH)].
  - exists []. split; [constructor | reflexivity].
  - cbn. destruct (isspace c) eqn:E.
    + exists (c :: a). split; [now constructor | cbn; now rewrite <- IH].
    + exists []. split; [constructor | reflexivity].
Qed.

Lemma lstrip_head s :
  lstrip s = [] \/ exists c t, lstrip s = c :: t /\ isspace c = false.
Proof.
  induction s as [|c s IH]; [now left|].
  cbn. destruct (isspace c) eqn:E; [exact IH | right; eauto].
Qed.

Lemma rstrip_nil_iff s : rstrip s = [] <-> all_space s.
Proof.
  induction s as [|c s IH]; [split; [constructor | reflexivity]|].
  cbn. split.
  - destruct (rstrip s) eqn:E; [|discriminate].
    destruct (isspace c) eqn:Ec; [|discriminate].
    intros _. constructor; [assumption | now apply IH].
  - intros H. inversion H as [|? ? Hc Hs]; subst.
    apply IH in Hs. now rewrite Hs, Hc.
Qed.

Lemma rstrip_all_space a b : all_space b -> rstrip (a ++ b) = rstrip a.
Proof.
  intros Hb. induction a as [|c a IH]; cbn.
  - now apply rstrip_nil_iff.
  - now rewrite IH.
Qed.

Lemma rstrip_some_text a b : some_text b -> rstrip (a ++ b) = a ++ rstrip b.
Proof.
  intros Hb. induction a as [|c a IH]; [reflexivity|].
  cbn. rewrite IH. destruct (a ++ rstrip b) eqn:E; [|reflexivity].
  apply app_eq_nil in E as [_ E]. apply rstrip_nil_iff in E.
  exfalso. apply List.Exists_exists in Hb as (x & Hx & Hx').
  unfold all_space in E. rewrite List.Forall_forall in E.
  specialize (E x Hx). congruence.
Qed.

Lemma rstrip_split s : exists b, all_space b /\ s = rstrip s ++ b.
Proof.
  induction s as [|c s (b & Hb & IH)].
  { exists []. split; [constructor | reflexivity]. }
  cbn. destruct (rstrip s) eqn:E.
  - destruct (isspace c) eqn:Ec.
    + exists (c :: b). cbn in IH. subst s. split; [now constructor | reflexivity].
    + exists b. cbn in IH. now subst s.
  - exists b. split; [assumption|]. cbn. f_equal. exact IH.
Qed.

Lemma rstrip_last s :
  rstrip s = [] \/ exists t c, rstrip s = t ++ [c] /\ isspace c = false.
Proof.
  induction s as [|c s IH]; [now left|].
  cbn. destruct (rstrip s) eqn:E.
  - destruct (isspace c) eqn:Ec; [now left | right; now exists [], c].
  - right. destruct IH as [IH | (t & y & IH & Hy)]; [discriminate|].
    exists (c :: t), y. now rewrite IH.
Qed.

Lemma rstrip_cons_text c s : isspace c = false -> exists t, rstrip (c :: s) = c :: t.
Proof.
  intros Hc. cbn. destruct (rstrip s); [rewrite Hc|]; eauto.
Qed.

Lemma rstrip_snoc_text s c : isspace c = false -> rstrip (s ++ [c]) = s ++ [c].
Proof.
  intros Hc. rewrite rstrip_some_text; [cbn; now rewrite Hc|].
  now constructor.
Qed.

(** The stripped text, in the text: white space, the stripped text, white
    space. *)
Lemma strip_split s :
  exists a b, all_space a /\ all_space b /\ s = a ++ strip s ++ b.
Proof.
  destruct (lstrip_split s) as (a & Ha & Hs).
  destruct (rstrip_split (lstrip s)) as (b & Hb & Hl).
  exists a, b. unfold strip. now rewrite <- Hl.
Qed.

(** The stripped text is empty, or begins and ends with text. *)
Lemma strip_ends s :
  strip s = [] \/
  (exists c t, strip s = c :: t /\ isspace c = false) /\
  (exists t c, strip s = t ++ [c] /\ isspace c = false).
Proof.
  unfold strip.
  destruct (rstrip_last (lstrip s)) as [E | Hlast]; [now left|].
  right. split; [|exact Hlast].
  destruct (lstrip_head s) as [E | (c & t & E & Hc)].
  - rewrite E in Hlast. destruct Hlast as (t & c & H & _).
    cbn in H. now destruct t.
  - rewrite E. destruct (rstrip_cons_text c t Hc) as (t' & Ht'). eauto.
Qed.

Lemma strip_of_stripped a m b :
  all_space a -> all_space b ->
  (exists c t, m = c :: t /\ isspace c = false) ->
  (exists t c, m = t ++ [c] /\ isspace c = false) ->
  strip (a ++ m ++ b) = m.
Proof.
  intros Ha Hb (c & t & Hm & Hc) (t' & c' & Hm' & Hc').
  unfold strip. rewrite lstrip_all_space by assumption.
  assert (lstrip (m ++ b) = m ++ b) as ->
    by (rewrite Hm; cbn; now rewrite Hc).
  rewrite rstrip_all_space by assumption.
  rewrite Hm'. now apply rstrip_snoc_text.
Qed.

Lemma strip_all_space s : all_space s -> strip s = [].
Proof.
  intros H. unfold strip. apply rstrip_nil_iff.
  destruct (lstrip_split s) as (a & _ & E).
  unfold all_space in *. rewrite E in H.
  now apply Forall_app in H as [_ H].
Qed.

Lemma remove_whitespace_app a b :
  remove_whitespace (a ++ b) = remove_whitespace a ++ remove_whitespace b.
Proof. apply List.filter_app. Qed.

Lemma remove_whitespace_all_space a : all_space a -> remove_whitespace a = [].
Proof.
  induction 1 as [|c a Hc _ IH]; [reflexivity|].
  cbn. now rewrite Hc.
Qed.

Lemma remove_whitespace_strip s :
  remove_whitespace (strip s) = remove_whitespace s.
Proof.
  destruct (strip_split s) as (a & b & Ha & Hb & E).
  rewrite E at 2. rewrite !remove_whitespace_app.
  rewrite (remove_whitespace_all_space a), (remove_whitespace_all_space b)
    by assumption.
  now rewrite app_nil_r.
Qed.

(** ** Line breaks *)

Lemma linebreak_is_space c : is_linebreak c = true -> isspace c = true.
Proof.
  unfold is_linebreak, LF, CR. rewrite orb_true_iff, !N.eqb_eq, isspace_iff. lia.
Qed.

Lemma text_not_linebreak c : isspace c = false -> is_linebreak c = false.
Proof.
  intros H. destruct (is_linebreak c) eqn:E; [|reflexivity].
  apply linebreak_is_space in E. congruence.
Qed.

Lemma not_linebreak c :
  is_linebreak c = false -> (c =? LF) = false /\ (c =? CR) = false.
Proof. unfold is_linebreak. now rewrite orb_false_iff. Qed.

(** A character that is not a line break passes through the translation and
    cuts it in two independent halves. *)
Lemma translate_around p pre c post :
  is_linebreak c = false ->
  translate_newlines p (pre ++ c :: post)
  = translate_newlines p pre ++ c :: translate_newlines false post.
Proof.
  intros Hc. destruct (not_linebreak c Hc) as [Hlf Hcr].
  revert p. induction pre as [|x pre IH]; intros p; cbn.
  - now rewrite Hlf, Hcr.
  - destruct ((x =? LF) && p); [apply IH|].
    destruct (x =? CR); cbn; now rewrite IH.
Qed.

Lemma translate_snoc p pre c :
  is_linebreak c = false ->
  translate_newlines p (pre ++ [c]) = translate_newlines p pre ++ [c].
Proof. intros Hc. now rewrite translate_around. Qed.

Lemma translate_all_space p s :
  all_space s -> all_space (translate_newlines p s).
Proof.
  intros H. revert p. induction H as [|c s Hc _ IH]; intros p; cbn.
  - constructor.
  - destruct ((c =? LF) && p); [apply IH|].
    destruct (c =? CR);
      (constructor; [first [assumption | reflexivity] | apply IH]).
Qed.

(** Once the line feeds are gone, the translation has removed exactly the
    line breaks. *)
Lemma replace_translate p s :
  replace LF [] (translate_newlines p s)
  = List.filter (fun c => negb (is_linebreak c)) s.
Proof.
  revert p. induction s as [|c s IH]; intros p; [reflexivity|].
  cbn. unfold is_linebreak at 1.
  destruct (c =? LF) eqn:Elf; cbn.
  - destruct p; cbn; [apply IH|].
    apply N.eqb_eq in Elf. subst c. cbn. apply IH.
  - destruct (c =? CR) eqn:Ecr; cbn; [apply IH|].
    rewrite Elf. cbn. f_equal. apply IH.
Qed.

Lemma translate_before_text p u c t :
  is_linebreak c = false ->
  translate_newlines p (u ++ c :: t)
  = translate_newlines p u ++ translate_newlines false (c :: t).
Proof.
  intros Hc. rewrite translate_around by assumption.
  f_equal. symmetry. exact (translate_around false [] c t Hc).
Qed.

Lemma translate_after_text p t c v :
  is_linebreak c = false ->
  translate_newlines p ((t ++ [c]) ++ v)
  = translate_newlines p (t ++ [c]) ++ translate_newlines false v.
Proof.
  intros Hc. rewrite <- app_assoc. cbn [app].
  rewrite translate_around, translate_snoc by assumption.
  now rewrite <- app_assoc.
Qed.

(** Reading in text mode and stripping commute. *)
Lemma strip_translate raw :
  strip (translate_newlines false raw) = translate_newlines false (strip raw).
Proof.
  destruct (strip_split raw) as (a & b & Ha & Hb & E).
  destruct (strip_ends raw) as [Hnil | [Hhead Hlast]].
  - rewrite Hnil in *. cbn in E. cbn.
    apply strip_all_space, translate_all_space.
    rewrite E. now apply Forall_app.
  - destruct Hhead as (c & t & Hm & Hc).
    destruct Hlast as (t' & c' & Hm' & Hc').
    pose proof (text_not_linebreak c Hc) as Lc.
    pose proof (text_not_linebreak c' Hc') as Lc'.
    assert (translate_newlines false raw
            = translate_newlines false a
              ++ translate_newlines false (strip raw)
              ++ translate_newlines false b) as ->.
    { rewrite E at 1. rewrite Hm at 1.
      change ((c :: t) ++ b) with (c :: t ++ b).
      rewrite translate_before_text by assumption. f_equal.
      change (c :: t ++ b) with ((c :: t) ++ b). rewrite <- Hm.
      rewrite Hm'. now apply translate_after_text. }
    apply strip_of_stripped.
    + now apply translate_all_space.
    + now apply translate_all_space.
    + exists c, (translate_newlines false t). split; [|assumption].
      rewrite Hm. exact (translate_around false [] c t Lc).
    + exists (translate_newlines false t'), c'. split; [|assumption].
      rewrite Hm'. now apply translate_snoc.
Qed.

(** What the normalization of [read_and_validate] removes: the white space
    at both ends, and every line break. *)
Lemma normalize_strip raw :
  normalize raw = List.filter (fun c => negb (is_linebreak c)) (strip raw).
Proof. unfold normalize. rewrite strip_translate. apply replace_translate. Qed.

(** ** The validator *)

Lemma read_and_validate_run path w :
  read_and_validate path w
  = (match files w !! path with
     | Some raw => validate path raw
     | None => Raise (OSError path)
     end, w).
Proof.
  unfold read_and_validate, validate, normalize, mbind, M_bind, read_text.
  destruct (files w !! path) as [raw|]; [|reflexivity].
  cbn. repeat match goal with |- context [if ?b then _ else _] =>
    destruct b; try reflexivity end.
Qed.

Lemma invalid_check s :
  existsb (fun c => negb (contains HEX_ALPHABET c)) s = false <-> all_hex s.
Proof.
  unfold all_hex, is_hex. induction s as [|c s IH]; cbn.
  - split; [constructor | reflexivity].
  - rewrite orb_false_iff, negb_false_iff, IH. split.
    + intros [? ?]. now constructor.
    + intros H. now inversion H.
Qed.

Lemma invalid_check_true s :
  Exists (fun c => is_hex c = false) s ->
  existsb (fun c => negb (contains HEX_ALPHABET c)) s = true.
Proof.
  intros H. apply existsb_exists. apply List.Exists_exists in H as (c & Hin & Hc).
  exists c. split; [assumption|]. unfold is_hex in Hc. now rewrite Hc.
Qed.

Lemma validate_length path raw :
  len (normalize raw) <> 16384%Z ->
  validate path raw = Raise (LengthMismatch path (len (normalize raw))).
Proof.
  intros H. unfold validate. apply Z.eqb_neq in H. now rewrite H.
Qed.

Lemma validate_invalid path raw :
  len (normalize raw) = 16384%Z ->
  Exists (fun c => is_hex c = false) (normalize raw) ->
  validate path raw = Raise (InvalidCharacter path).
Proof.
  intros Hlen Hbad. unfold validate.
  rewrite invalid_check_true by assumption. now rewrite Hlen.
Qed.

Lemma validate_valid path raw :
  len (normalize raw) = 16384%Z -> all_hex (normalize raw) ->
  validate path raw = Ok (lower (normalize raw)).
Proof.
  intros Hlen Hhex. unfold validate.
  apply invalid_check in Hhex. rewrite Hhex. now rewrite Hlen.
Qed.

Lemma validate_ok path raw s :
  validate path raw = Ok s ->
  len (normalize raw) = 16384%Z /\ all_hex (normalize raw)
  /\ s = lower (normalize raw).
Proof.
  unfold validate.
  destruct (len (normalize raw) =? 16384)%Z eqn:Hlen; [|discriminate].
  apply Z.eqb_eq in Hlen.
  destruct (existsb _ _) eqn:Hbad.
  - rewrite orb_true_r. discriminate.
  - rewrite Hlen. intros [= <-]. apply invalid_check in Hbad. auto.
Qed.

Lemma validate_modelled path raw : validate path raw <> Unmodelled.
Proof.
  unfold validate.
  repeat match goal with |- context [if ?b then _ else _] =>
    destruct b; try discriminate end.
Qed.

Lemma lower_length s : List.length (lower s) = List.length s.
Proof. apply List.length_map. Qed.

Lemma lower_all_hex s : all_hex s -> all_lower_hex (lower s).
Proof.
  unfold all_hex, all_lower_hex, lower. intros H.
  apply List.Forall_map. eapply List.Forall_impl; [|exact H].
  intros c. apply lower_char_hex.
Qed.

(** [lower] is only ever applied to text over the hexadecimal alphabet, and
    returns text of the same length over its lower-case half. *)
Lemma validated_text_is_hex path raw s :
  validate path raw = Ok s ->
  all_hex (normalize raw) /\ len s = 16384%Z /\ all_lower_hex s.
Proof.
  intros H. apply validate_ok in H as (Hlen & Hhex & ->).
  split; [assumption|]. split; [|now apply lower_all_hex].
  unfold len in *. now rewrite lower_length.
Qed.

(** ** Wrapping solid text *)

Section Wrapping.

Local Open Scope nat_scope.

Lemma all_hex_solid s : all_hex s -> solid s.
Proof.
  unfold all_hex, solid. apply List.Forall_impl. intros c Hc.
  apply is_hex_iff in Hc. split.
  - destruct (textwrap.is_separator c) eqn:E; [|reflexivity].
    apply is_separator_iff in E. lia.
  - destruct (isspace c) eqn:E; [|reflexivity].
    apply isspace_iff in E. lia.
Qed.

Lemma all_lower_hex_all_hex s : all_lower_hex s -> all_hex s.
Proof.
  unfold all_hex, all_lower_hex. apply List.Forall_impl. intros c.
  rewrite is_lower_hex_iff, is_hex_iff. lia.
Qed.

Lemma solid_no_separator s : solid s -> existsb textwrap.is_separator s = false.
Proof.
  induction 1 as [|c s [Hc _] _ IH]; [reflexivity|].
  cbn [existsb]. now rewrite Hc, IH.
Qed.

Lemma solid_not_blank c s : solid (c :: s) -> textwrap.is_blank (c :: s) = false.
Proof.
  intros H. inversion H as [|? ? [_ Hc] _]; subst.
  unfold textwrap.is_blank, strip. cbn [lstrip]. rewrite Hc.
  destruct (rstrip_cons_text c s Hc) as (t & ->). reflexivity.
Qed.

Lemma solid_take n s : solid s -> solid (take n s).
Proof. apply Forall_take. Qed.

Lemma solid_drop n s : solid s -> solid (drop n s).
Proof. apply Forall_drop. Qed.

Lemma solid_app a b : solid a -> solid b -> solid (a ++ b).
Proof. intros. now apply Forall_app. Qed.

Lemma separator_hyphen c : textwrap.is_separator c = false -> (c =? HYPHEN)%N = false.
Proof.
  intros H. destruct (N.eqb_spec c HYPHEN) as [->|]; [|reflexivity].
  discriminate H.
Qed.

Lemma rfind_from_solid s i : solid s -> textwrap.rfind_from HYPHEN s i = None.
Proof.
  intros H. revert i. induction H as [|c s [Hc _] _ IH]; intros i; [reflexivity|].
  cbn [textwrap.rfind_from]. rewrite IH. now rewrite (separator_hyphen c Hc).
Qed.

Lemma rfind_solid s stop : solid s -> textwrap.rfind HYPHEN s stop = None.
Proof. intros H. apply rfind_from_solid. now apply solid_take. Qed.

Lemma nonempty_length {A} (l : list A) : 0 < List.length l -> exists x t, l = x :: t.
Proof. destruct l; cbn; [lia | eauto]. Qed.

(** A pass over a single solid chunk that is longer than the line: the
    first [width] characters become a line, the rest stays on the stack. *)
Lemma wrap_line_long text lines width :
  solid text -> 0 < width -> width < List.length text ->
  textwrap.wrap_line [text] lines width
  = ([drop width text], lines ++ [take width text]).
Proof.
  intros Hs Hw Hlen.
  destruct (nonempty_length text) as (c & t & Etext); [lia|].
  destruct (nonempty_length (take width text)) as (c' & t' & Etake).
  { rewrite length_take. lia. }
  assert (textwrap.is_blank text = false) as Hb
    by (rewrite Etext; apply solid_not_blank; now rewrite <- Etext).
  assert (textwrap.is_blank (take width text) = false) as Hb'
    by (rewrite Etake; apply solid_not_blank; rewrite <- Etake;
        now apply solid_take).
  unfold textwrap.wrap_line.
  assert (match lines with
          | [] => [text]
          | _ :: _ => if textwrap.is_blank text then [] else [text]
          end = [text]) as -> by (rewrite Hb; now destruct lines).
  cbn [textwrap.fill_line].
  assert ((0 + List.length text <=? width) = false) as ->
    by (apply Nat.leb_gt; lia).
  assert ((width <? List.length text) = true) as E1 by (apply Nat.ltb_lt; lia).
  rewrite E1. unfold textwrap._handle_long_word.
  assert ((width <? 1) = false) as -> by (apply Nat.ltb_ge; lia).
  rewrite Nat.sub_0_r, E1, rfind_solid by assumption.
  cbn [app last]. rewrite Hb'. cbn [concat]. now rewrite app_nil_r.
Qed.

(** A pass over a single solid chunk that fits: it becomes the last line. *)
Lemma wrap_line_fits text lines width :
  solid text -> 0 < List.length text <= width ->
  textwrap.wrap_line [text] lines width = ([], lines ++ [text]).
Proof.
  intros Hs Hlen.
  destruct (nonempty_length text) as (c & t & Etext); [lia|].
  assert (textwrap.is_blank text = false) as Hb
    by (rewrite Etext; apply solid_not_blank; now rewrite <- Etext).
  unfold textwrap.wrap_line.
  assert (match lines with
          | [] => [text]
          | _ :: _ => if textwrap.is_blank text then [] else [text]
          end = [text]) as -> by (rewrite Hb; now destruct lines).
  cbn [textwrap.fill_line].
  assert ((0 + List.length text <=? width) = true) as ->
    by (apply Nat.leb_le; lia).
  cbn [app last]. rewrite Hb. cbn [concat]. now rewrite app_nil_r.
Qed.

Lemma piece_drop width text i :
  piece width (drop width text) i = piece width text (S i).
Proof. unfold piece. rewrite drop_drop. f_equal. Qed.

Lemma pieces_S width k text :
  pieces width (S k) text = take width text :: pieces width k (drop width text).
Proof.
  unfold pieces. cbn [seq List.map]. f_equal.
  rewrite <- seq_shift, List.map_map.
  apply List.map_ext. intros i. symmetry. apply piece_drop.
Qed.

Lemma pieces_length width k text : List.length (pieces width k text) = k.
Proof. unfold pieces. now rewrite List.length_map, length_seq. Qed.

Lemma pieces_lookup width k text i :
  i < k -> pieces width k text !! i = Some (piece width text i).
Proof.
  intros Hi. unfold pieces. rewrite list_lookup_fmap.
  now rewrite lookup_seq_lt.
Qed.

Lemma pieces_uniform width k text :
  List.length text = k * width ->
  Forall (fun chunk => List.length chunk = width) (pieces width k text).
Proof.
  revert text. induction k as [|k IH]; intros text Hlen; [constructor|].
  rewrite pieces_S. constructor.
  - rewrite length_take. lia.
  - apply IH. rewrite length_drop. lia.
Qed.

Lemma pieces_concat width k text :
  List.length text = k * width -> concat (pieces width k text) = text.
Proof.
  revert text. induction k as [|k IH]; intros text Hlen.
  - destruct text; [reflexivity | discriminate].
  - rewrite pieces_S. cbn [concat]. rewrite IH by (rewrite length_drop; lia).
    apply take_drop.
Qed.

(** The outer loop on a single solid chunk of [S k] line widths: [S k]
    passes, one piece each. *)
Lemma wrap_loop_pieces width k :
  0 < width ->
  forall text lines fuel,
    solid text -> List.length text = S k * width -> S k <= fuel ->
    textwrap.wrap_loop fuel [text] lines width
    = Ok (lines ++ pieces width (S k) text).
Proof.
  intros Hw. induction k as [|k IH]; intros text lines fuel Hs Hlen Hfuel.
  - destruct fuel as [|fuel]; [lia|]. cbn [textwrap.wrap_loop].
    rewrite wrap_line_fits by (try assumption; lia).
    destruct fuel; cbn [textwrap.wrap_loop]; rewrite pieces_S;
      rewrite take_ge by lia; reflexivity.
  - destruct fuel as [|fuel]; [lia|]. cbn [textwrap.wrap_loop].
    rewrite wrap_line_long by (try assumption; lia).
    rewrite IH.
    + rewrite (pieces_S width (S k)). now rewrite <- app_assoc.
    + now apply solid_drop.
    + rewrite length_drop. lia.
    + lia.
Qed.

(** [textwrap.wrap] on solid text whose length is a positive multiple of
    the width. *)
Lemma wrap_pieces text width k :
  solid text -> 0 < width -> 0 < k -> List.length text = k * width ->
  textwrap.wrap text (Z.of_nat width) = Ok (pieces width k text).
Proof.
  intros Hs Hw Hk Hlen. unfold textwrap.wrap, textwrap._split_chunks.
  rewrite solid_no_separator by assumption.
  destruct text as [|c t]; [cbn in Hlen; nia|].
  set (text := c :: t) in *. unfold textwrap._wrap_chunks.
  assert ((Z.of_nat width <=? 0)%Z = false) as -> by (apply Z.leb_gt; lia).
  rewrite Nat2Z.id. destruct k as [|k]; [lia|].
  rewrite wrap_loop_pieces with (k := k); try assumption; [reflexivity|].
  cbn [List.length concat]. rewrite app_nil_r. nia.
Qed.

End Wrapping.

(** ** The run *)

Lemma for_each_run w :
  for_each read_and_validate PART_FILES w = (load w, w).
Proof.
  unfold PART_FILES, load. cbn [for_each]. unfold mbind, M_bind.
  rewrite read_and_validate_run. fold part1.
  destruct (files w !! part1) as [a|]; [|reflexivity].
  destruct (validate part1 a) as [s1| |]; try reflexivity.
  rewrite read_and_validate_run. fold part2.
  destruct (files w !! part2) as [b|]; [|reflexivity].
  now destruct (validate part2 b).
Qed.

(** What the list comprehension returns: two validated texts. *)
Lemma load_ok w parts :
  load w = Ok parts ->
  exists a b s1 s2,
    files w !! part1 = Some a /\ files w !! part2 = Some b
    /\ validate part1 a = Ok s1 /\ validate part2 b = Ok s2
    /\ parts = [s1; s2].
Proof.
  unfold load.
  destruct (files w !! part1) as [a|]; [|discriminate].
  destruct (validate part1 a) as [s1| |] eqn:E1; try discriminate.
  destruct (files w !! part2) as [b|]; [|discriminate].
  destruct (validate part2 b) as [s2| |] eqn:E2; try discriminate.
  intros [= <-]. exists a, b, s1, s2. auto.
Qed.

Lemma load_modelled w : load w <> Unmodelled.
Proof.
  unfold load.
  destruct (files w !! part1) as [a|]; [|discriminate].
  pose proof (validate_modelled part1 a).
  destruct (validate part1 a) as [s1| |]; try easy.
  destruct (files w !! part2) as [b|]; [|discriminate].
  pose proof (validate_modelled part2 b).
  now destruct (validate part2 b).
Qed.

(** The payload of a run that passed validation. *)
Lemma load_payload w parts :
  load w = Ok parts ->
  len (concat parts) = 32768%Z /\ all_lower_hex (concat parts).
Proof.
  intros H. apply load_ok in H as (a & b & s1 & s2 & _ & _ & H1 & H2 & ->).
  apply validated_text_is_hex in H1 as (_ & L1 & X1).
  apply validated_text_is_hex in H2 as (_ & L2 & X2).
  cbn [concat]. rewrite app_nil_r. split.
  - unfold len in *. rewrite List.length_app. lia.
  - now apply Forall_app.
Qed.

Lemma wrap_payload combined :
  len combined = 32768%Z -> all_lower_hex combined ->
  textwrap.wrap combined CHUNK_HEX_LEN = Ok (pieces 1024 32 combined).
Proof.
  intros Hlen Hhex. change CHUNK_HEX_LEN with (Z.of_nat 1024).
  apply wrap_pieces; try lia.
  - now apply all_hex_solid, all_lower_hex_all_hex.
  - unfold len in Hlen. lia.
Qed.

(** The whole script as a function of the world. *)
Lemma main_run w :
  main w =
  match load w with
  | Ok parts =>
      if decide (OUTPUT_SOL ∈ locked w) then (Raise (OSError OUTPUT_SOL), w)
      else (Ok tt,
            World (<[OUTPUT_SOL := sol_source_of (concat parts)]> (files w))
                  (locked w) (stdout w ++ [confirmation]))
  | Raise e => (Raise e, w)
  | Unmodelled => (Unmodelled, w)
  end.
Proof.
  unfold main. unfold mbind at 1. unfold M_bind at 1.
  rewrite for_each_run.
  destruct (load w) as [parts| |] eqn:E; try reflexivity.
  destruct (load_payload w parts E) as [Hlen Hhex].
  rewrite Hlen. cbn [Z.eqb Pos.eqb negb].
  unfold mbind, M_bind, pure. rewrite wrap_payload by assumption.
  unfold write_text, print, sol_source_of.
  now destruct (decide (OUTPUT_SOL ∈ locked w)).
Qed.

(** The script never leaves the embedded fragment of the library. *)
Lemma main_is_modelled w : (main w).1 <> Unmodelled.
Proof.
  rewrite main_run. pose proof (load_modelled w).
  destruct (load w); try easy.
  now destruct (decide (OUTPUT_SOL ∈ locked w)).
Qed.


(** ** What the normalization keeps *)

Lemma all_space_or_some_text s : all_space s \/ some_text s.
Proof.
  induction s as [|c s [IH|IH]].
  - left. constructor.
  - destruct (isspace c) eqn:E.
    + left. now constructor.
    + right. now constructor.
  - right. now constructor 2.
Qed.

Lemma lstrip_nil_all_space s : all_space s -> lstrip s = [].
Proof. induction 1 as [|c s Hc _ IH]; cbn; [reflexivity | now rewrite Hc]. Qed.

(** White space around a text does not change what stripping gives. *)
Lemma strip_frame lead core trail :
  all_space lead -> all_space trail ->
  strip (lead ++ core ++ trail) = strip core.
Proof.
  intros Hl Ht. unfold strip. rewrite lstrip_all_space by assumption.
  destruct (all_space_or_some_text core) as [Hc | Hc].
  - rewrite lstrip_all_space by assumption.
    rewrite (lstrip_nil_all_space trail), (lstrip_nil_all_space core)
      by assumption.
    reflexivity.
  - rewrite lstrip_some_text by assumption. now apply rstrip_all_space.
Qed.

Lemma strip_unbroken s : unbroken s -> unbroken (strip s).
Proof.
  intros H. destruct (strip_split s) as (a & b & _ & _ & E).
  unfold unbroken in *. rewrite E in H.
  apply Forall_app in H as [_ H]. now apply Forall_app in H as [H _].
Qed.

Lemma unbroken_filter s :
  unbroken s ->
  List.filter (fun c => negb (is_linebreak c)) s = remove_whitespace s.
Proof.
  intros H. unfold remove_whitespace. apply List.filter_ext_in.
  intros c Hin. unfold unbroken in H. rewrite List.Forall_forall in H.
  specialize (H c Hin). unfold text_or_linebreak in H.
  destruct (isspace c) eqn:Es.
  - cbn in H. now rewrite H.
  - now rewrite (text_not_linebreak c Es).
Qed.

(** With line breaks as the only white space inside, the normalization is
    the removal of all white space. *)
Lemma normalize_unbroken lead core trail :
  all_space lead -> all_space trail -> unbroken core ->
  normalize (lead ++ core ++ trail) = remove_whitespace (lead ++ core ++ trail).
Proof.
  intros Hl Ht Hc. rewrite normalize_strip, strip_frame by assumption.
  rewrite unbroken_filter by now apply strip_unbroken.
  rewrite remove_whitespace_strip, !remove_whitespace_app.
  rewrite (remove_whitespace_all_space lead), (remove_whitespace_all_space trail)
    by assumption.
  now rewrite app_nil_r.
Qed.

Lemma remove_whitespace_lstrip s :
  remove_whitespace (lstrip s) = remove_whitespace s.
Proof.
  destruct (lstrip_split s) as (a & Ha & E). rewrite E at 2.
  now rewrite remove_whitespace_app, (remove_whitespace_all_space a).
Qed.

Lemma remove_whitespace_rstrip s :
  remove_whitespace (rstrip s) = remove_whitespace s.
Proof.
  destruct (rstrip_split s) as (b & Hb & E). rewrite E at 2.
  rewrite remove_whitespace_app, (remove_whitespace_all_space b) by assumption.
  now rewrite app_nil_r.
Qed.

(** Removing the line breaks removes no more than removing all white
    space does. *)
Lemma linebreaks_fewer s :
  (List.length (remove_whitespace s)
   <= List.length (List.filter (fun c => negb (is_linebreak c)) s))%nat.
Proof.
  unfold remove_whitespace. induction s as [|c s IH]; cbn; [lia|].
  destruct (isspace c) eqn:Es; cbn.
  - destruct (negb (is_linebreak c)); cbn; lia.
  - rewrite (text_not_linebreak c Es). cbn. lia.
Qed.

(** A blank that stands between two pieces of text survives the
    normalization. *)
Lemma strip_around pre c post :
  some_text pre -> some_text post ->
  strip (pre ++ c :: post) = lstrip pre ++ c :: rstrip post.
Proof.
  intros Hpre Hpost. unfold strip. rewrite lstrip_some_text by assumption.
  change (lstrip pre ++ c :: post) with (lstrip pre ++ [c] ++ post).
  rewrite app_assoc, rstrip_some_text by assumption.
  now rewrite <- app_assoc.
Qed.

Lemma normalize_inner_blank pre c post :
  isspace c = true -> is_linebreak c = false ->
  some_text pre -> some_text post ->
  (len (remove_whitespace (pre ++ c :: post))
   < len (normalize (pre ++ c :: post)))%Z.
Proof.
  intros Hs Hl Hpre Hpost.
  rewrite normalize_strip, strip_around by assumption.
  rewrite List.filter_app. cbn [List.filter]. rewrite Hl. cbn [negb].
  rewrite remove_whitespace_app. unfold remove_whitespace at 2.
  cbn [List.filter]. rewrite Hs. cbn [negb]. fold (remove_whitespace post).
  pose proof (linebreaks_fewer (lstrip pre)) as L1.
  pose proof (linebreaks_fewer (rstrip post)) as L2.
  rewrite remove_whitespace_lstrip in L1. rewrite remove_whitespace_rstrip in L2.
  unfold len. rewrite !List.length_app. cbn [List.length]. lia.
Qed.

(** ** Side conditions on concrete text *)

Lemma Forall_of_forallb (P : char -> bool) (s : str) :
  forallb P s = true -> Forall (fun c => P c = true) s.
Proof.
  induction s as [|c s IH]; cbn; [constructor|].
  intros H. apply andb_true_iff in H as [Hc Hs]. constructor; auto.
Qed.

Lemma some_text_of_existsb (s : str) :
  existsb (fun c => negb (isspace c)) s = true -> some_text s.
Proof.
  intros H. apply existsb_exists in H as (c & Hin & Hc).
  apply List.Exists_exists. exists c. split; [assumption|].
  now apply negb_true_iff.
Qed.

Lemma Exists_of_existsb (P : char -> bool) (s : str) :
  existsb (fun c => negb (P c)) s = true -> Exists (fun c => P c = false) s.
Proof.
  intros H. apply existsb_exists in H as (c & Hin & Hc).
  apply List.Exists_exists. exists c. split; [assumption|].
  now apply negb_true_iff.
Qed.

(** ** C1: what the normalization removes *)

(** C1, as stated, fails: 16,384 valid digits with one space in the middle
    are not accepted.  Removing all white space would leave 16,384 valid
    digits, but the validator keeps the space, counts 16,385 characters and
    raises its length error. *)
Lemma C1_inner_space_is_rejected :
  len (remove_whitespace zeros_with_space) = 16384%Z
  /\ forallb is_hex (remove_whitespace zeros_with_space) = true
  /\ len (normalize zeros_with_space) = 16385%Z
  /\ (read_and_validate part1 (world_of zeros_with_space effs)).1
     = Raise (ValueError (py "rom/eh_hex_part1.txt is 16385 chars, expected 16384")).
Proof. vm_compute. repeat split. Qed.

(** C1, amended.  Before the length and character checks the validator
    removes the white space at both ends of the text and every line break
    (a carriage return counts: text mode reads it as a line feed), and
    nothing else.  So a fragment whose characters other than white space
    are 16,384 valid digits is accepted when the only white space inside
    it is line breaks, and is rejected for its length when a space or a tab
    stands inside it. *)
Theorem C1_normalization path w raw :
  files w !! path = Some raw ->
  normalize raw = List.filter (fun c => negb (is_linebreak c)) (strip raw)
  /\ read_and_validate path w = (validate path raw, w)
  /\ (forall lead core trail,
        raw = lead ++ core ++ trail ->
        all_space lead -> all_space trail -> unbroken core ->
        len (remove_whitespace raw) = 16384%Z ->
        all_hex (remove_whitespace raw) ->
        read_and_validate path w = (Ok (lower (remove_whitespace raw)), w))
  /\ (forall pre c post,
        raw = pre ++ c :: post ->
        c = SPACE \/ c = TAB ->
        some_text pre -> some_text post ->
        len (remove_whitespace raw) = 16384%Z ->
        exists n, (16384 < n)%Z
          /\ read_and_validate path w = (Raise (LengthMismatch path n), w)).
Proof.
  intros Hfile.
  assert (read_and_validate path w = (validate path raw, w)) as Hrun
    by (rewrite read_and_validate_run; now rewrite Hfile).
  split; [apply normalize_strip|]. split; [exact Hrun|]. split.
  - intros lead core trail -> Hl Ht Hc Hlen Hhex.
    rewrite Hrun. f_equal.
    rewrite <- (normalize_unbroken lead core trail) in * by assumption.
    now apply validate_valid.
  - intros pre c post -> Hc Hpre Hpost Hlen.
    pose proof (normalize_inner_blank pre c post) as Hlt.
    exists (len (normalize (pre ++ c :: post))).
    assert (isspace c = true /\ is_linebreak c = false) as [Hs Hl]
      by (destruct Hc as [-> | ->]; now split).
    specialize (Hlt Hs Hl Hpre Hpost). split; [lia|].
    rewrite Hrun. f_equal. apply validate_length. lia.
Qed.

Lemma C1_normalization_witness :
  read_and_validate part1 (world_of zeros_in_lines effs)
  = (Ok (lower (remove_whitespace zeros_in_lines)), world_of zeros_in_lines effs).
Proof.
  refine (proj1 (proj2 (proj2
    (C1_normalization part1 (world_of zeros_in_lines effs) zeros_in_lines _)))
    [] (times (py "00") 4096%Z ++ [CR; LF] ++ times (py "00") 4096%Z) [LF]
    _ _ _ _ _ _).
  - reflexivity.
  - vm_compute. reflexivity.
  - constructor.
  - apply Forall_of_forallb. vm_compute. reflexivity.
  - apply (Forall_of_forallb text_or_linebreak). vm_compute. reflexivity.
  - vm_compute. reflexivity.
  - apply (Forall_of_forallb is_hex). vm_compute. reflexivity.
Defined.

(** ** C2: the confirmation message *)

(** Every successful run prints the same line, whatever was read. *)
Lemma main_prints_confirmation w :
  (main w).1 = Ok tt -> stdout (main w).2 = stdout w ++ [confirmation].
Proof.
  rewrite main_run. destruct (load w); try discriminate.
  now destruct (decide (OUTPUT_SOL ∈ locked w)).
Qed.

(** C2 fails on the code.  On the two valid fragments of the concrete
    scenario the run succeeds and prints the text of the format string with
    its doubled braces, [Generated {OUTPUT_SOL} ({len(combined) // 2} bytes)],
    where the claim has [Generated src/BasicRom.sol (16384 bytes)]. *)
Theorem C2_confirmation_is_placeholder_text :
  (main (world_of zeros effs)).1 = Ok tt
  /\ stdout (main (world_of zeros effs)).2
     = [py "Generated {OUTPUT_SOL} ({len(combined) // 2} bytes)"]
  /\ intended_confirmation (zeros ++ effs)
     = py "Generated src/BasicRom.sol (16384 bytes)"
  /\ stdout (main (world_of zeros effs)).2
     <> [intended_confirmation (zeros ++ effs)].
Proof.
  assert ((main (world_of zeros effs)).1 = Ok tt) as Hok
    by (vm_compute; reflexivity).
  split; [exact Hok|].
  rewrite (main_prints_confirmation _ Hok).
  split; [reflexivity|]. split; [vm_compute; reflexivity|].
  vm_compute. discriminate.
Qed.

(** ** C3: the concrete scenario *)

(** C3.  With fragment A = "00" * 8192 and fragment B = "ff" * 8192 both
    fragments pass validation, the payload has 32,768 characters,
    [textwrap.wrap] cuts it in 32 chunks of 1,024 characters, the first
    "00" * 512 and the last "ff" * 512, and the file written is the
    template around the 32 literal tokens of these chunks, in order and
    separated by a space; the opening of a literal ([hex] and a double
    quote) occurs 32 times in it. *)
Theorem C3_concrete_scenario :
  let w := world_of zeros effs in
  let combined := zeros ++ effs in
  let chunks := repeat (times (py "00") 512%Z) 16
                ++ repeat (times (py "ff") 512%Z) 16 in
  let sol_source :=
    sol_header ++ join (py " ") (List.map hex_literal chunks) ++ sol_footer in
  (for_each read_and_validate PART_FILES w).1 = Ok [zeros; effs]
  /\ len combined = 32768%Z
  /\ textwrap.wrap combined CHUNK_HEX_LEN = Ok chunks
  /\ List.length chunks = 32%nat
  /\ List.map len chunks = repeat 1024%Z 32
  /\ head chunks = Some (times (py "00") 512%Z)
  /\ last chunks = Some (times (py "ff") 512%Z)
  /\ (main w).1 = Ok tt
  /\ produced (main w) = Some sol_source
  /\ occurrences (py "hex" ++ [QUOTE]) sol_source = 32%nat.
Proof.
  cbv zeta. repeat apply conj;
    lazymatch goal with |- _ = ?r => vm_cast_no_check (@eq_refl _ r) end.
Qed.

(** ** C4: the chunker covers the payload *)

(** C4.  On a payload over the hexadecimal alphabet whose length is [k]
    times 1,024 with [k] positive, [textwrap.wrap] returns [k] chunks, each
    of 1,024 characters, the [i]-th being the characters from [i * 1024] up
    to [(i + 1) * 1024] of the payload, so that their concatenation in
    order is the payload. *)
Theorem C4_chunks_cover_payload (payload : str) (k : nat) :
  all_hex payload ->
  (0 < k)%nat ->
  List.length payload = (k * 1024)%nat ->
  exists chunks : list str,
    textwrap.wrap payload CHUNK_HEX_LEN = Ok chunks
    /\ List.length chunks = k
    /\ Forall (fun chunk => List.length chunk = 1024%nat) chunks
    /\ concat chunks = payload
    /\ forall i, (i < k)%nat ->
         chunks !! i = Some (take 1024 (drop (i * 1024) payload)).
Proof.
  intros Hhex Hk Hlen. exists (pieces 1024 k payload).
  split; [|split; [|split; [|split]]].
  - change CHUNK_HEX_LEN with (Z.of_nat 1024).
    apply wrap_pieces; try assumption; [|lia].
    now apply all_hex_solid.
  - apply pieces_length.
  - now apply pieces_uniform.
  - now apply pieces_concat.
  - intros i Hi. now apply pieces_lookup.
Qed.

Lemma C4_chunks_cover_payload_witness :
  exists chunks : list str,
    textwrap.wrap (times (py "0A") 1024%Z) CHUNK_HEX_LEN = Ok chunks
    /\ List.length chunks = 2%nat
    /\ Forall (fun chunk => List.length chunk = 1024%nat) chunks
    /\ concat chunks = times (py "0A") 1024%Z
    /\ forall i, (i < 2)%nat ->
         chunks !! i = Some (take 1024 (drop (i * 1024) (times (py "0A") 1024%Z))).
Proof.
  apply (C4_chunks_cover_payload (times (py "0A") 1024%Z) 2).
  - apply (Forall_of_forallb is_hex). vm_compute. reflexivity.
  - lia.
  - vm_compute. reflexivity.
Defined.

(** ** C5: what the validator returns *)

(** C5.  When the validator succeeds, the text it returns has exactly
    16,384 characters, all of them digits or letters a to f in lower
    case; it is the normalized content of the file in lower case, whatever
    the case of the letters in the file. *)
Theorem C5_validated_text_is_canonical path w s :
  (read_and_validate path w).1 = Ok s ->
  len s = 16384%Z /\ all_lower_hex s
  /\ exists raw, files w !! path = Some raw /\ s = lower (normalize raw).
Proof.
  rewrite read_and_validate_run. cbn [fst].
  destruct (files w !! path) as [raw|]; [|discriminate].
  intros H. pose proof (validated_text_is_hex path raw s H) as (_ & Hlen & Hlow).
  apply validate_ok in H as (_ & _ & ->). eauto.
Qed.

Lemma C5_validated_text_is_canonical_witness :
  len effs = 16384%Z /\ all_lower_hex effs
  /\ exists raw,
       files (world_of zeros upper_effs) !! part2 = Some raw
       /\ effs = lower (normalize raw).
Proof.
  apply (C5_validated_text_is_canonical part2 (world_of zeros upper_effs) effs).
  vm_compute. reflexivity.
Defined.

(** ** C6: the two checks *)

(** C6.  The character check comes on top of the length check.  A fragment
    whose normalized text has the right length and holds a character
    outside 0-9, a-f, A-F is rejected with the invalid-character error; a
    fragment of another length is rejected with the length error, whether
    or not its characters are valid; so either defect alone is enough for
    the fragment to be rejected. *)
Theorem C6_either_defect_rejects path w raw :
  files w !! path = Some raw ->
  (len (normalize raw) = 16384%Z ->
   Exists (fun c => is_hex c = false) (normalize raw) ->
   read_and_validate path w = (Raise (InvalidCharacter path), w))
  /\ (len (normalize raw) <> 16384%Z ->
      read_and_validate path w
      = (Raise (LengthMismatch path (len (normalize raw))), w))
  /\ (len (normalize raw) <> 16384%Z
      \/ Exists (fun c => is_hex c = false) (normalize raw) ->
      exists e, read_and_validate path w = (Raise e, w)).
Proof.
  intros Hfile.
  assert (read_and_validate path w = (validate path raw, w)) as ->
    by (rewrite read_and_validate_run; now rewrite Hfile).
  split; [|split].
  - intros Hlen Hbad. now rewrite validate_invalid.
  - intros Hlen. now rewrite validate_length.
  - intros Hdefect.
    destruct (Z.eq_dec (len (normalize raw)) 16384%Z) as [Hlen | Hlen].
    + destruct Hdefect as [? | Hbad]; [contradiction|].
      rewrite validate_invalid by assumption. eauto.
    + rewrite validate_length by assumption. eauto.
Qed.

Lemma C6_either_defect_rejects_witness :
  read_and_validate part1 (world_of gees effs)
  = (Raise (InvalidCharacter part1), world_of gees effs).
Proof.
  refine (proj1 (C6_either_defect_rejects part1 (world_of gees effs) gees _) _ _).
  - reflexivity.
  - vm_compute. reflexivity.
  - apply (Exists_of_existsb is_hex). vm_compute. reflexivity.
Defined.

(** ** C7: a fragment one character short *)

Lemma validate_raise path raw e :
  validate path raw = Raise e -> exists msg, e = ValueError msg.
Proof.
  unfold validate, LengthMismatch, InvalidCharacter.
  repeat match goal with |- context [if ?b then _ else _] => destruct b end;
    intros [= <-]; eauto.
Qed.

(** The list comprehension raises what the first failing fragment raises:
    an [OSError] or a [ValueError]. *)
Lemma load_raise w e :
  load w = Raise e ->
  (exists path, e = OSError path) \/ (exists msg, e = ValueError msg).
Proof.
  unfold load.
  destruct (files w !! part1) as [a|]; [|intros [= <-]; eauto].
  destruct (validate part1 a) as [s1| |] eqn:E1; try discriminate.
  - destruct (files w !! part2) as [b|]; [|intros [= <-]; eauto].
    destruct (validate part2 b) as [s2| |] eqn:E2; try discriminate.
    intros [= <-]. right. eapply validate_raise; eauto.
  - intros [= <-]. right. eapply validate_raise; eauto.
Qed.

Lemma load_first_short w raw :
  files w !! part1 = Some raw -> len (normalize raw) = 16383%Z ->
  load w = Raise (LengthMismatch part1 16383).
Proof.
  intros Hfile Hlen. unfold load. rewrite Hfile.
  rewrite validate_length by lia. now rewrite Hlen.
Qed.

Lemma load_second_short w s1 raw :
  (read_and_validate part1 w).1 = Ok s1 ->
  files w !! part2 = Some raw -> len (normalize raw) = 16383%Z ->
  load w = Raise (LengthMismatch part2 16383).
Proof.
  rewrite read_and_validate_run. cbn [fst]. intros H1 Hfile Hlen.
  unfold load. destruct (files w !! part1) as [a|]; [|discriminate].
  rewrite H1, Hfile. rewrite validate_length by lia. now rewrite Hlen.
Qed.

Lemma load_some_short w p raw :
  In p PART_FILES ->
  files w !! p = Some raw -> len (normalize raw) = 16383%Z ->
  exists e, load w = Raise e.
Proof.
  intros [<- | [<- | []]] Hfile Hlen.
  - rewrite (load_first_short w raw) by assumption. eauto.
  - unfold load. destruct (files w !! part1) as [a|]; [|eauto].
    pose proof (validate_modelled part1 a).
    destruct (validate part1 a) as [s1| |] eqn:E1; [|eauto|easy].
    fold part2 in Hfile. rewrite Hfile.
    rewrite validate_length by lia. eauto.
Qed.

(** C7, as stated, fails: the second fragment is one character short, but
    the first holds characters that are not digits, and the run stops on
    the first with the invalid-character error; no length error is
    raised. *)
Lemma C7_earlier_failure_comes_first :
  files (world_of gees short_zeros) !! part2 = Some short_zeros
  /\ len (normalize short_zeros) = 16383%Z
  /\ (main (world_of gees short_zeros)).1
     = Raise (ValueError (py "rom/eh_hex_part1.txt contains invalid hex"))
  /\ (main (world_of gees short_zeros)).1
     <> Raise (LengthMismatch part2 16383).
Proof.
  split; [reflexivity|]. split; [vm_compute; reflexivity|].
  assert ((main (world_of gees short_zeros)).1
          = Raise (ValueError (py "rom/eh_hex_part1.txt contains invalid hex")))
    as -> by (vm_compute; reflexivity).
  split; [reflexivity|]. vm_compute. discriminate.
Qed.

(** C7, amended.  A run in which some fragment has normalized length
    16,383 fails, and the world after it is the world before it: nothing is
    written.  The failure is the length error of that fragment, with
    message [<path> is 16383 chars, expected 16384], when the fragment is
    the first one, or is the second one and the first passes validation;
    otherwise the run has already stopped on the first fragment. *)
Theorem C7_short_fragment_fails w p raw :
  In p PART_FILES ->
  files w !! p = Some raw ->
  len (normalize raw) = 16383%Z ->
  (exists e, main w = (Raise e, w))
  /\ (p = part1 -> main w = (Raise (LengthMismatch part1 16383), w))
  /\ (p = part2 ->
      (exists s1, (read_and_validate part1 w).1 = Ok s1) ->
      main w = (Raise (LengthMismatch part2 16383), w))
  /\ LengthMismatch p 16383
     = ValueError (py p ++ py " is 16383 chars, expected 16384").
Proof.
  intros Hp Hfile Hlen. split; [|split; [|split]].
  - destruct (load_some_short w p raw Hp Hfile Hlen) as (e & He).
    exists e. rewrite main_run. now rewrite He.
  - intros ->. rewrite main_run.
    now rewrite (load_first_short w raw).
  - intros -> (s1 & H1). rewrite main_run.
    now rewrite (load_second_short w s1 raw).
  - reflexivity.
Qed.

Lemma C7_short_fragment_fails_witness :
  main (world_of short_zeros effs)
  = (Raise (LengthMismatch part1 16383), world_of short_zeros effs).
Proof.
  refine (proj1 (proj2
    (C7_short_fragment_fails (world_of short_zeros effs) part1 short_zeros
       _ _ _)) _).
  - left. reflexivity.
  - reflexivity.
  - vm_compute. reflexivity.
  - reflexivity.
Defined.

(** ** C8: the integrity check *)

Lemma main_never_asserts w msg : (main w).1 <> Raise (AssertionError msg).
Proof.
  rewrite main_run. destruct (load w) as [parts|e|] eqn:E.
  - now destruct (decide (OUTPUT_SOL ∈ locked w)).
  - cbn [fst]. intros [= ->].
    apply load_raise in E as [(? & ?) | (? & ?)]; discriminate.
  - discriminate.
Qed.

(** C8.  When every fragment passes validation, each validated text has
    16,384 characters and the payload has 32,768, so [main] does not raise
    its [AssertionError]. *)
Theorem C8_integrity_check_unreachable w parts :
  (for_each read_and_validate PART_FILES w).1 = Ok parts ->
  Forall (fun s => len s = 16384%Z) parts
  /\ len (concat parts) = 32768%Z
  /\ forall msg, (main w).1 <> Raise (AssertionError msg).
Proof.
  rewrite for_each_run. cbn [fst]. intros Hload.
  split; [|split].
  - apply load_ok in Hload as (a & b & s1 & s2 & _ & _ & H1 & H2 & ->).
    apply validated_text_is_hex in H1 as (_ & L1 & _).
    apply validated_text_is_hex in H2 as (_ & L2 & _).
    repeat constructor; assumption.
  - now apply (load_payload w).
  - intros msg. apply main_never_asserts.
Qed.

Lemma C8_integrity_check_unreachable_witness :
  Forall (fun s => len s = 16384%Z) [zeros; effs]
  /\ len (concat [zeros; effs]) = 32768%Z
  /\ forall msg, (main (world_of zeros effs)).1 <> Raise (AssertionError msg).
Proof.
  apply (C8_integrity_check_unreachable (world_of zeros effs) [zeros; effs]).
  vm_compute. reflexivity.
Defined.

(** ** C9: the case of the letters *)

Lemma translate_case a a' :
  Forall2 case_variant a a' ->
  forall p, Forall2 case_variant (translate_newlines p a) (translate_newlines p a').
Proof.
  induction 1 as [|c c' a a' Hc _ IH]; intros p; cbn; [constructor|].
  rewrite <- (case_variant_eqb c c' LF Hc), <- (case_variant_eqb c c' CR Hc)
    by reflexivity.
  destruct ((c =? LF) && p); [apply IH|].
  destruct (c =? CR); constructor; auto. reflexivity.
Qed.

Lemma lstrip_case a a' :
  Forall2 case_variant a a' -> Forall2 case_variant (lstrip a) (lstrip a').
Proof.
  induction 1 as [|c c' a a' Hc H IH]; cbn; [constructor|].
  rewrite <- (case_variant_isspace c c' Hc).
  destruct (isspace c); [exact IH | now constructor].
Qed.

Lemma rstrip_case a a' :
  Forall2 case_variant a a' -> Forall2 case_variant (rstrip a) (rstrip a').
Proof.
  induction 1 as [|c c' a a' Hc H IH]; cbn; [constructor|].
  rewrite <- (case_variant_isspace c c' Hc).
  destruct IH as [|x x' t t' Hx Ht].
  - destruct (isspace c); repeat constructor. exact Hc.
  - repeat constructor; assumption.
Qed.

Lemma replace_case a a' :
  Forall2 case_variant a a' ->
  Forall2 case_variant (replace LF [] a) (replace LF [] a').
Proof.
  unfold replace. induction 1 as [|c c' a a' Hc H IH]; cbn; [constructor|].
  rewrite <- (case_variant_eqb c c' LF Hc) by reflexivity.
  destruct (c =? LF); cbn; [exact IH | now constructor].
Qed.

Lemma normalize_case a a' :
  Forall2 case_variant a a' -> Forall2 case_variant (normalize a) (normalize a').
Proof.
  intros H. unfold normalize, strip.
  now apply replace_case, rstrip_case, lstrip_case, translate_case.
Qed.

Lemma lower_case a a' : Forall2 case_variant a a' -> lower a = lower a'.
Proof.
  unfold lower. induction 1 as [|c c' a a' Hc _ IH]; cbn; [reflexivity|].
  now rewrite Hc, IH.
Qed.

Lemma invalid_check_case a a' :
  Forall2 case_variant a a' ->
  existsb (fun c => negb (contains HEX_ALPHABET c)) a
  = existsb (fun c => negb (contains HEX_ALPHABET c)) a'.
Proof.
  induction 1 as [|c c' a a' Hc _ IH]; cbn [existsb]; [reflexivity|].
  rewrite IH. f_equal. f_equal. exact (case_variant_is_hex c c' Hc).
Qed.

(** The validator cannot tell two texts apart that differ in case only. *)
Lemma validate_case path a a' :
  Forall2 case_variant a a' -> validate path a = validate path a'.
Proof.
  intros H. apply normalize_case in H. unfold validate.
  assert (len (normalize a) = len (normalize a')) as ->
    by (unfold len; now rewrite (Forall2_length _ _ _ H)).
  now rewrite (invalid_check_case _ _ H), (lower_case _ _ H).
Qed.

Lemma lower_is_case_variant a : Forall2 case_variant a (lower a).
Proof.
  unfold lower. induction a as [|c a IH]; cbn; constructor; [|exact IH].
  unfold case_variant. symmetry. apply lower_char_idem.
Qed.

Lemma hex_case_is_case_variant a a' :
  Forall2 hex_case_variant a a' -> Forall2 case_variant a a'.
Proof.
  intros H. eapply Forall2_impl; [exact H|].
  exact hex_case_variant_case_variant.
Qed.

(** The run as a function of the two dumps and of whether the output path
    can be written. *)
Lemma main_depends_on_inputs w w' :
  load w = load w' ->
  (OUTPUT_SOL ∈ locked w <-> OUTPUT_SOL ∈ locked w') ->
  (main w).1 = (main w').1 /\ produced (main w) = produced (main w').
Proof.
  intros Hload Hlock. rewrite !main_run, <- Hload.
  destruct (load w) as [parts| |]; try (split; reflexivity).
  destruct (decide (OUTPUT_SOL ∈ locked w)) as [Hin | Hout],
           (decide (OUTPUT_SOL ∈ locked w')) as [Hin' | Hout'];
    try tauto; cbn [fst produced files].
  split; [reflexivity|]. now rewrite !lookup_insert_eq.
Qed.

Lemma load_depends_on_dumps w w' a b a' b' :
  files w !! part1 = Some a -> files w !! part2 = Some b ->
  files w' !! part1 = Some a' -> files w' !! part2 = Some b' ->
  validate part1 a = validate part1 a' ->
  validate part2 b = validate part2 b' ->
  load w = load w'.
Proof.
  intros H1 H2 H1' H2' V1 V2. unfold load.
  now rewrite H1, H2, H1', H2', V1, V2.
Qed.

(** C9.  Two runs whose fragments differ only in the case of their
    hexadecimal letters, or of which one reads the lower-cased fragments of
    the other, end alike: the same result, and on success the same
    content of the output file. *)
Theorem C9_case_does_not_matter w w' a b a' b' :
  files w !! part1 = Some a -> files w !! part2 = Some b ->
  files w' !! part1 = Some a' -> files w' !! part2 = Some b' ->
  (Forall2 hex_case_variant a a' /\ Forall2 hex_case_variant b b')
  \/ (a' = lower a /\ b' = lower b) ->
  (OUTPUT_SOL ∈ locked w <-> OUTPUT_SOL ∈ locked w') ->
  (main w).1 = (main w').1 /\ produced (main w) = produced (main w').
Proof.
  intros H1 H2 H1' H2' Hcase Hlock.
  apply main_depends_on_inputs; [|exact Hlock].
  apply (load_depends_on_dumps w w' a b a' b'); try assumption.
  - apply validate_case. destruct Hcase as [[Ha _] | [-> _]].
    + now apply hex_case_is_case_variant.
    + apply lower_is_case_variant.
  - apply validate_case. destruct Hcase as [[_ Hb] | [_ ->]].
    + now apply hex_case_is_case_variant.
    + apply lower_is_case_variant.
Qed.

Lemma C9_case_does_not_matter_witness :
  (main (world_of zeros upper_effs)).1 = (main (world_of zeros effs)).1
  /\ produced (main (world_of zeros upper_effs))
     = produced (main (world_of zeros effs)).
Proof.
  apply (C9_case_does_not_matter (world_of zeros upper_effs)
           (world_of zeros effs) zeros upper_effs zeros effs).
  - reflexivity.
  - reflexivity.
  - reflexivity.
  - reflexivity.
  - right. split; vm_compute; reflexivity.
  - unfold world_of. cbn [locked]. tauto.
Defined.

(** ** C10: determinism *)

(** C10.  Two runs that find the same content in the two input files, and
    the output path writable in both or in neither, end alike whatever
    else differs between their worlds (other files, an older output file,
    earlier output): the same result, and on success the same content of
    the output file. *)
Theorem C10_same_inputs_same_output w w' :
  files w !! part1 = files w' !! part1 ->
  files w !! part2 = files w' !! part2 ->
  (OUTPUT_SOL ∈ locked w <-> OUTPUT_SOL ∈ locked w') ->
  (main w).1 = (main w').1 /\ produced (main w) = produced (main w').
Proof.
  intros H1 H2 Hlock. apply main_depends_on_inputs; [|exact Hlock].
  unfold load. now rewrite H1, H2.
Qed.

Lemma C10_same_inputs_same_output_witness :
  (main (world_of zeros effs)).1 = (main busy_world).1
  /\ produced (main (world_of zeros effs)) = produced (main busy_world).
Proof.
  apply (C10_same_inputs_same_output (world_of zeros effs) busy_world).
  - vm_compute. reflexivity.
  - vm_compute. reflexivity.
  - split; intros H.
    + now apply not_elem_of_empty in H.
    + unfold busy_world in H. cbn [locked] in H.
      now apply elem_of_singleton in H.
Defined.

(** ** Further properties of the validator *)

Lemma normalize_all_space raw : all_space raw -> normalize raw = [].
Proof.
  intros H. rewrite normalize_strip. now rewrite strip_all_space.
Qed.

(** X1.  A file that is empty or holds white space only fails the length
    check: the validator raises [<path> is 0 chars, expected 16384] and
    leaves the world as it is. *)
Theorem X1_blank_input_fails_length_check path w raw :
  files w !! path = Some raw ->
  all_space raw ->
  read_and_validate path w
  = (Raise (ValueError (py path ++ py " is 0 chars, expected 16384")), w).
Proof.
  intros Hfile Hblank. rewrite read_and_validate_run, Hfile. f_equal.
  rewrite validate_length; rewrite (normalize_all_space raw Hblank);
    [reflexivity | discriminate].
Qed.

Lemma X1_blank_input_fails_length_check_witness :
  read_and_validate part1 (world_of blank effs)
  = (Raise (ValueError (py part1 ++ py " is 0 chars, expected 16384")),
     world_of blank effs).
Proof.
  apply (X1_blank_input_fails_length_check part1 (world_of blank effs) blank).
  - reflexivity.
  - apply (Forall_of_forallb isspace). vm_compute. reflexivity.
Defined.

Lemma strip_join a b :
  some_text a -> some_text b -> strip (a ++ b) = lstrip a ++ rstrip b.
Proof.
  intros Ha Hb. unfold strip. rewrite lstrip_some_text by assumption.
  now apply rstrip_some_text.
Qed.

Lemma strip_lead a x : all_space a -> strip (a ++ x) = strip x.
Proof.
  intros Ha. pose proof (strip_frame a x [] Ha) as H.
  rewrite app_nil_r in H. apply H. constructor.
Qed.

Lemma strip_trail x b : all_space b -> strip (x ++ b) = strip x.
Proof.
  intros Hb. apply (strip_frame [] x b); [constructor | assumption].
Qed.

Lemma all_space_app a b : all_space a -> all_space b -> all_space (a ++ b).
Proof. intros. now apply Forall_app. Qed.

(** Line breaks put anywhere in a text do not change what is left after
    stripping and removing the line breaks. *)
Lemma strip_filter_breaks a brk b :
  Forall (fun c => is_linebreak c = true) brk ->
  List.filter (fun c => negb (is_linebreak c)) (strip (a ++ brk ++ b))
  = List.filter (fun c => negb (is_linebreak c)) (strip (a ++ b)).
Proof.
  intros Hbrk.
  assert (all_space brk) as Hsp
    by (eapply List.Forall_impl; [|exact Hbrk]; apply linebreak_is_space).
  assert (List.filter (fun c => negb (is_linebreak c)) brk = []) as Hgone.
  { clear Hsp. induction Hbrk as [|c brk Hc _ IH]; [reflexivity|].
    cbn. now rewrite Hc. }
  destruct (all_space_or_some_text a) as [Ha | Ha].
  - rewrite app_assoc, !strip_lead; auto using all_space_app.
  - destruct (all_space_or_some_text b) as [Hb | Hb].
    + rewrite (strip_trail a b), (strip_trail a (brk ++ b));
        auto using all_space_app.
    + rewrite (strip_join a b) by assumption.
      assert (strip (a ++ brk ++ b) = lstrip a ++ brk ++ rstrip b) as ->.
      { unfold strip. rewrite lstrip_some_text by assumption.
        rewrite (app_assoc (lstrip a) brk b).
        rewrite rstrip_some_text by assumption. now rewrite <- app_assoc. }
      rewrite !List.filter_app, Hgone. reflexivity.
Qed.

(** X2.  The layout of a dump in lines does not matter: a line feed, a
    carriage return, or a carriage return followed by a line feed, put at
    any place in the file, leaves the normalized text that the validator
    checks unchanged. *)
Theorem X2_line_breaks_do_not_matter (a b : str) :
  normalize (a ++ [LF] ++ b) = normalize (a ++ b)
  /\ normalize (a ++ [CR] ++ b) = normalize (a ++ b)
  /\ normalize (a ++ [CR; LF] ++ b) = normalize (a ++ b).
Proof.
  rewrite !normalize_strip.
  repeat split; apply strip_filter_breaks; repeat constructor.
Qed.

(** X3.  White space before and after the content of a dump does not
    matter: the validator checks the same normalized text with or without
    it. *)
Theorem X3_surrounding_space_does_not_matter (lead raw trail : str) :
  all_space lead -> all_space trail ->
  normalize (lead ++ raw ++ trail) = normalize raw.
Proof.
  intros Hl Ht. rewrite !normalize_strip. now rewrite strip_frame.
Qed.

Lemma X3_surrounding_space_does_not_matter_witness :
  normalize (py "   " ++ zeros ++ [LF; LF]) = normalize zeros.
Proof.
  apply (X3_surrounding_space_does_not_matter (py "   ") zeros [LF; LF]).
  - repeat constructor.
  - repeat constructor.
Defined.

Lemma invalid_is_not_length path n :
  InvalidCharacter path <> LengthMismatch path n.
Proof.
  unfold InvalidCharacter, LengthMismatch. intros [= H].
  apply app_inv_head in H. discriminate H.
Qed.

(** X4.  The invalid-hex error is raised exactly when the normalized text
    has 16,384 characters and one of them is outside 0-9, a-f, A-F: the
    test on the parity of the length, in the same condition, never decides
    anything. *)
Theorem X4_invalid_hex_exactly_on_bad_character path w raw :
  files w !! path = Some raw ->
  (read_and_validate path w).1 = Raise (InvalidCharacter path)
  <-> len (normalize raw) = 16384%Z
      /\ Exists (fun c => is_hex c = false) (normalize raw).
Proof.
  intros Hfile. rewrite read_and_validate_run, Hfile. cbn [fst]. split.
  - intros H.
    destruct (Z.eq_dec (len (normalize raw)) 16384%Z) as [Hlen | Hlen].
    + split; [assumption|].
      destruct (existsb (fun c => negb (contains HEX_ALPHABET c)) (normalize raw))
        eqn:Hbad.
      * apply existsb_exists in Hbad as (c & Hin & Hc).
        apply List.Exists_exists. exists c. split; [assumption|].
        now apply negb_true_iff.
      * apply invalid_check in Hbad.
        rewrite validate_valid in H by assumption. discriminate.
    + rewrite validate_length in H by assumption.
      exfalso. apply (invalid_is_not_length path (len (normalize raw))).
      congruence.
  - intros [Hlen Hbad]. now apply validate_invalid.
Qed.

Lemma X4_invalid_hex_exactly_on_bad_character_witness :
  (read_and_validate part1 (world_of gees effs)).1 = Raise (InvalidCharacter part1).
Proof.
  apply (X4_invalid_hex_exactly_on_bad_character part1 (world_of gees effs) gees).
  - reflexivity.
  - split; [vm_compute; reflexivity|].
    apply (Exists_of_existsb is_hex). vm_compute. reflexivity.
Defined.

(** ** Further properties of the run *)

Lemma load_by_fragments w :
  load w =
  match (read_and_validate part1 w).1 with
  | Ok s1 =>
      match (read_and_validate part2 w).1 with
      | Ok s2 => Ok [s1; s2]
      | Raise e => Raise e
      | Unmodelled => Unmodelled
      end
  | Raise e => Raise e
  | Unmodelled => Unmodelled
  end.
Proof.
  unfold load. rewrite !read_and_validate_run. cbn [fst].
  destruct (files w !! part1) as [a|]; [|reflexivity].
  destruct (validate part1 a); try reflexivity.
  now destruct (files w !! part2).
Qed.

Lemma main_first_failure w e :
  (read_and_validate part1 w).1 = Raise e
  \/ ((exists s1, (read_and_validate part1 w).1 = Ok s1)
      /\ (read_and_validate part2 w).1 = Raise e) ->
  main w = (Raise e, w).
Proof.
  intros H. rewrite main_run, load_by_fragments.
  destruct H as [-> | [(s1 & ->) ->]]; reflexivity.
Qed.

(** X5.  The run stops at the first fragment that fails: what the
    validator raises on the first file is what [main] raises, whatever the
    second file holds; the second file's failure is raised only when the
    first file passes.  In both cases the world is left as it was. *)
Theorem X5_first_failure_is_raised w e :
  (read_and_validate part1 w).1 = Raise e
  \/ ((exists s1, (read_and_validate part1 w).1 = Ok s1)
      /\ (read_and_validate part2 w).1 = Raise e) ->
  main w = (Raise e, w).
Proof. apply main_first_failure. Qed.

Lemma X5_first_failure_is_raised_witness :
  main (world_of gees short_zeros)
  = (Raise (InvalidCharacter part1), world_of gees short_zeros).
Proof.
  apply (X5_first_failure_is_raised (world_of gees short_zeros)).
  left. vm_compute. reflexivity.
Defined.

(** X6.  A missing input file makes the run fail with the [OSError] of
    that file: the first file's when it is missing, the second file's when
    it is missing and the first passes validation.  Nothing is written or
    printed. *)
Theorem X6_missing_input_raises_oserror w :
  files w !! part1 = None
  \/ ((exists s1, (read_and_validate part1 w).1 = Ok s1)
      /\ files w !! part2 = None) ->
  exists path,
    In path PART_FILES /\ files w !! path = None
    /\ main w = (Raise (OSError path), w).
Proof.
  intros [H1 | [Hok H2]].
  - exists part1. split; [now left|]. split; [assumption|].
    apply main_first_failure.
    left. rewrite read_and_validate_run. now rewrite H1.
  - exists part2. split; [right; now left|]. split; [assumption|].
    apply main_first_failure.
    right. split; [assumption|]. rewrite read_and_validate_run. now rewrite H2.
Qed.

Lemma X6_missing_input_raises_oserror_witness :
  exists path,
    In path PART_FILES /\ files world_without_part1 !! path = None
    /\ main world_without_part1 = (Raise (OSError path), world_without_part1).
Proof.
  apply (X6_missing_input_raises_oserror world_without_part1).
  left. reflexivity.
Defined.








(** ** The file that is written *)

Lemma pieces_Forall (Q : char -> Prop) width k text :
  Forall Q text -> Forall (Forall Q) (pieces width k text).
Proof.
  intros H. unfold pieces. apply List.Forall_forall. intros chunk Hin.
  apply in_map_iff in Hin as (i & <- & _).
  unfold piece. now apply Forall_take, Forall_drop.
Qed.

Lemma join_length_uniform (sep : str) (l : list str) (n : nat) :
  l <> [] ->
  Forall (fun x => List.length x = n) l ->
  (List.length (join sep l) + List.length sep
   = List.length l * (n + List.length sep))%nat.
Proof.
  intros Hne H. induction H as [|x l Hx H IH]; [contradiction|].
  destruct l as [|y rest].
  - clear IH H Hne. cbn [join List.length]. lia.
  - change (join sep (x :: y :: rest))
      with (x ++ sep ++ join sep (y :: rest)).
    rewrite !List.length_app.
    specialize (IH ltac:(discriminate)). clear H Hne.
    cbn [List.length] in *. nia.
Qed.

Lemma hex_literal_length chunk :
  List.length (hex_literal chunk) = (List.length chunk + 5)%nat.
Proof.
  unfold hex_literal. rewrite !List.length_app. cbn. lia.
Qed.

(** What a successful run leaves behind. *)
Lemma main_ok w :
  (main w).1 = Ok tt ->
  exists a b,
    files w !! part1 = Some a /\ files w !! part2 = Some b
    /\ validate part1 a = Ok (lower (normalize a))
    /\ validate part2 b = Ok (lower (normalize b))
    /\ (main w).2
       = World (<[OUTPUT_SOL :=
                   sol_source_of (lower (normalize a) ++ lower (normalize b))]>
                  (files w))
               (locked w) (stdout w ++ [confirmation]).
Proof.
  rewrite main_run. destruct (load w) as [parts| |] eqn:E; try discriminate.
  destruct (decide (OUTPUT_SOL ∈ locked w)); [discriminate|]. intros _.
  apply load_ok in E as (a & b & s1 & s2 & Ha & Hb & H1 & H2 & ->).
  pose proof (validate_ok _ _ _ H1) as (_ & _ & ->).
  pose proof (validate_ok _ _ _ H2) as (_ & _ & ->).
  exists a, b. cbn [snd concat]. rewrite app_nil_r. auto.
Qed.

Lemma payload_shape a b :
  validate part1 a = Ok (lower (normalize a)) ->
  validate part2 b = Ok (lower (normalize b)) ->
  List.length (lower (normalize a) ++ lower (normalize b)) = (32 * 1024)%nat
  /\ all_lower_hex (lower (normalize a) ++ lower (normalize b)).
Proof.
  intros H1 H2.
  apply validated_text_is_hex in H1 as (_ & L1 & X1).
  apply validated_text_is_hex in H2 as (_ & L2 & X2).
  split; [|now apply Forall_app].
  unfold len in *. rewrite List.length_app. lia.
Qed.

(** X10.  After a successful run the output file holds the template
    around 32 literals joined by single spaces.  Each literal holds 1,024
    lower-case hexadecimal digits, and the digits of the literals, read in
    order, are the normalized first fragment followed by the normalized
    second fragment, in lower case: nothing is lost, added or reordered. *)
Theorem X10_output_embeds_payload w :
  (main w).1 = Ok tt ->
  exists a b chunks,
    files w !! part1 = Some a /\ files w !! part2 = Some b
    /\ produced (main w)
       = Some (sol_header ++ join (py " ") (List.map hex_literal chunks)
               ++ sol_footer)
    /\ List.length chunks = 32%nat
    /\ Forall (fun chunk =>
                 List.length chunk = 1024%nat /\ all_lower_hex chunk) chunks
    /\ concat chunks = lower (normalize a) ++ lower (normalize b).
Proof.
  intros Hok. pose proof Hok as Hrun.
  apply main_ok in Hrun as (a & b & Ha & Hb & H1 & H2 & Hw).
  destruct (payload_shape a b H1 H2) as [Hlen Hhex].
  exists a, b, (pieces 1024 32 (lower (normalize a) ++ lower (normalize b))).
  split; [assumption|]. split; [assumption|]. split; [|split; [|split]].
  - destruct (main w) as [r w1]. cbn [fst snd] in *. subst r w1.
    cbn [produced files]. now rewrite lookup_insert_eq.
  - apply pieces_length.
  - pose proof (pieces_uniform 1024 32 _ Hlen) as Hu.
    pose proof (pieces_Forall _ 1024 32 _ Hhex) as Hq.
    apply List.Forall_forall. intros chunk Hin. split.
    + rewrite List.Forall_forall in Hu. now apply Hu.
    + rewrite List.Forall_forall in Hq. now apply Hq.
  - now apply pieces_concat.
Qed.

Lemma X10_output_embeds_payload_witness :
  exists a b chunks,
    files (world_of zeros upper_effs) !! part1 = Some a
    /\ files (world_of zeros upper_effs) !! part2 = Some b
    /\ produced (main (world_of zeros upper_effs))
       = Some (sol_header ++ join (py " ") (List.map hex_literal chunks)
               ++ sol_footer)
    /\ List.length chunks = 32%nat
    /\ Forall (fun chunk =>
                 List.length chunk = 1024%nat /\ all_lower_hex chunk) chunks
    /\ concat chunks = lower (normalize a) ++ lower (normalize b).
Proof.
  apply (X10_output_embeds_payload (world_of zeros upper_effs)).
  vm_compute. reflexivity.
Defined.

(** X11.  The file written by a successful run always has 33,384
    characters, whatever the fragments hold. *)
Theorem X11_output_size_is_fixed w :
  (main w).1 = Ok tt ->
  exists sol_source, produced (main w) = Some sol_source
                     /\ len sol_source = 33384%Z.
Proof.
  intros Hok. pose proof Hok as Hrun.
  apply main_ok in Hrun as (a & b & Ha & Hb & H1 & H2 & Hw).
  destruct (payload_shape a b H1 H2) as [Hlen _].
  exists (sol_source_of (lower (normalize a) ++ lower (normalize b))). split.
  - destruct (main w) as [r w1]. cbn [fst snd] in *. subst r w1.
    cbn [produced files]. now rewrite lookup_insert_eq.
  - unfold sol_source_of, render, len. rewrite !List.length_app.
    set (literals := List.map hex_literal _).
    assert (List.length literals = 32%nat) as Hn
      by (unfold literals; now rewrite List.length_map, pieces_length).
    assert (Forall (fun x => List.length x = 1029%nat) literals) as Hu.
    { unfold literals. apply List.Forall_map.
      eapply List.Forall_impl; [|exact (pieces_uniform 1024 32 _ Hlen)].
      intros chunk Hc. cbn beta in Hc. rewrite hex_literal_length. lia. }
    assert (literals <> []) as Hne by (intros E; now rewrite E in Hn).
    pose proof (join_length_uniform (py " ") literals 1029 Hne Hu) as Hj.
    rewrite Hn in Hj. change (List.length (py " ")) with 1%nat in Hj.
    assert (Z.of_nat (List.length sol_header) = 339%Z) as Hh
      by (vm_compute; reflexivity).
    assert (Z.of_nat (List.length sol_footer) = 86%Z) as Hf
      by (vm_compute; reflexivity).
    lia.
Qed.

Lemma X11_output_size_is_fixed_witness :
  exists sol_source,
    produced (main (world_of zeros upper_effs)) = Some sol_source
    /\ len sol_source = 33384%Z.
Proof.
  apply (X11_output_size_is_fixed (world_of zeros upper_effs)).
  vm_compute. reflexivity.
Defined.

Lemma output_is_not_an_input path : In path PART_FILES -> OUTPUT_SOL <> path.
Proof. intros [<- | [<- | []]]; discriminate. Qed.

(** X12.  A successful run changes one file only: every path other than
    the output path, the two input files among them, holds afterwards what
    it held before; the set of unwritable paths is unchanged; and exactly
    one line, the confirmation, is added to the output. *)
Theorem X12_success_touches_only_the_output w :
  (main w).1 = Ok tt ->
  (forall path, path <> OUTPUT_SOL ->
                files (main w).2 !! path = files w !! path)
  /\ (forall path, In path PART_FILES ->
                   files (main w).2 !! path = files w !! path)
  /\ locked (main w).2 = locked w
  /\ stdout (main w).2 = stdout w ++ [confirmation].
Proof.
  intros Hok. apply main_ok in Hok as (a & b & _ & _ & _ & _ & ->).
  cbn [files locked stdout].
  split; [|split; [|split; reflexivity]].
  - intros path Hne. now apply lookup_insert_ne.
  - intros path Hin. apply lookup_insert_ne.
    now apply output_is_not_an_input.
Qed.

Lemma X12_success_touches_only_the_output_witness :
  (forall path, path <> OUTPUT_SOL ->
                files (main busy_world).2 !! path = files busy_world !! path)
  /\ (forall path, In path PART_FILES ->
                   files (main busy_world).2 !! path = files busy_world !! path)
  /\ locked (main busy_world).2 = locked busy_world
  /\ stdout (main busy_world).2 = stdout busy_world ++ [confirmation].
Proof.
  apply (X12_success_touches_only_the_output busy_world).
  vm_compute. reflexivity.
Defined.

(** X13.  Running the script again on the world a successful run left
    succeeds again and leaves every file as it is, the output file
    included: only the confirmation is printed once more. *)
Theorem X13_second_run_changes_no_file w :
  (main w).1 = Ok tt ->
  (main (main w).2).1 = Ok tt
  /\ files (main (main w).2).2 = files (main w).2
  /\ locked (main (main w).2).2 = locked (main w).2
  /\ stdout (main (main w).2).2 = stdout (main w).2 ++ [confirmation].
Proof.
  intros Hok. pose proof Hok as Hrun.
  apply main_ok in Hrun as (a & b & Ha & Hb & H1 & H2 & Hw).
  assert (OUTPUT_SOL ∉ locked w) as Hout.
  { rewrite main_run in Hok. destruct (load w); try discriminate.
    now destruct (decide (OUTPUT_SOL ∈ locked w)). }
  rewrite Hw. set (w1 := World _ _ _).
  assert (load w1 = Ok [lower (normalize a); lower (normalize b)]) as Hload.
  { unfold load, w1. cbn [files].
    rewrite !lookup_insert_ne by (apply output_is_not_an_input; cbn; auto).
    now rewrite Ha, Hb, H1, H2. }
  assert (main w1
          = (Ok tt,
             World (<[OUTPUT_SOL :=
                       sol_source_of
                         (lower (normalize a) ++ lower (normalize b))]>
                      (files w1))
                   (locked w1) (stdout w1 ++ [confirmation]))) as ->.
  { rewrite main_run, Hload. cbn [concat]. rewrite app_nil_r.
    destruct (decide (OUTPUT_SOL ∈ locked w1)) as [Hin|]; [|reflexivity].
    exfalso. apply Hout. exact Hin. }
  cbn [fst snd files locked stdout].
  split; [reflexivity|]. split; [|split; reflexivity].
  apply insert_insert_eq.
Qed.

Lemma X13_second_run_changes_no_file_witness :
  (main (main busy_world).2).1 = Ok tt
  /\ files (main (main busy_world).2).2 = files (main busy_world).2
  /\ locked (main (main busy_world).2).2 = locked (main busy_world).2
  /\ stdout (main (main busy_world).2).2
     = stdout (main busy_world).2 ++ [confirmation].
Proof.
  apply (X13_second_run_changes_no_file busy_world).
  vm_compute. reflexivity.
Defined.
